(** * The MariaDB-to-ColumnStore replicator (replicator.cc): a shallow embedding

    The development follows the C++ source function by function.  Values
    that the source keeps in fixed-width unsigned integers are modelled in
    [N] with the width spelled out where it matters ([strtoull] saturates at
    [ULLONG_MAX]).  Undefined behaviour of the C++ program (indexing a vector
    out of range, calling through a null [unique_ptr]) and a failed
    [mxb_assert] in a debug build are both modelled by the outcome [Crash]. *)

From Stdlib Require Import NArith ZArith Ascii String List Bool Lia.
From stdpp Require Import base option list gmap strings.

Local Open Scope string_scope.
Local Open Scope N_scope.

(** ** Outcomes *)

Inductive result (A : Type) : Type :=
  | Done (a : A)
  | Crash.
Arguments Done {A} a.
Arguments Crash {A}.

#[global] Instance result_ret : MRet result := fun A a => Done a.
#[global] Instance result_bind : MBind result := fun A B f r =>
  match r with
  | Done a => f a
  | Crash => Crash
  end.

(** [std::vector::operator[]]: reading past the end is undefined. *)
Definition vec_at {A} (v : list A) (i : nat) : result A :=
  match nth_error v i with
  | Some x => Done x
  | None => Crash
  end.

(** ** Characters and numbers as the C library sees them *)

Definition isspace (c : ascii) : bool :=
  let n := N_of_ascii c in (n =? 32) || ((9 <=? n) && (n <=? 13)).

Definition digit_val (c : ascii) : option N :=
  let n := N_of_ascii c in
  if (48 <=? n) && (n <=? 57) then Some (n - 48) else None.

Definition digit_to_ascii (d : N) : ascii := ascii_of_N (48 + d).

Fixpoint skip_space (s : string) : string :=
  match s with
  | String c r => if isspace c then skip_space r else s
  | EmptyString => s
  end.

(** Value of the longest prefix of decimal digits, continuing from [acc]. *)
Fixpoint digits_value (acc : N) (s : string) : N :=
  match s with
  | String c r =>
      match digit_val c with
      | Some d => digits_value (10 * acc + d) r
      | None => acc
      end
  | EmptyString => acc
  end.

Definition ULLONG_MAX : N := 2 ^ 64 - 1.

(** [strtoull(s, nullptr, 10)]: leading white space, an optional sign, then
    digits; a value out of range yields [ULLONG_MAX], a minus sign negates
    in the unsigned type. *)
Definition strtoull (s : string) : N :=
  let s1 := skip_space s in
  let '(neg, s2) :=
    match s1 with
    | String "-"%char r => (true, r)
    | String "+"%char r => (false, r)
    | _ => (false, s1)
    end in
  let v := digits_value 0 s2 in
  if ULLONG_MAX <? v then ULLONG_MAX
  else if neg then (2 ^ 64 - v) mod 2 ^ 64 else v.

(** [std::ostream << unsigned]: decimal digits, most significant first, no
    padding.  [fuel] bounds the number of digits. *)
Fixpoint put_decimal (fuel : nat) (n : N) (acc : string) : string :=
  match fuel with
  | O => acc
  | S fuel' =>
      let acc' := String (digit_to_ascii (n mod 10)) acc in
      if n / 10 =? 0 then acc' else put_decimal fuel' (n / 10) acc'
  end.

Definition ostream_put (n : N) : string :=
  put_decimal (S (N.to_nat (N.log2 n))) n "".

(** Modelled from the spec: [mxs::strtok] (maxscale/utils.hh) is not among
    the sources.  The spec has the codec "split on [-]"; the helper wraps
    [strtok_r], so the tokens are the maximal non-empty runs of characters
    that are not delimiters. *)
Fixpoint strtok_from (delim : list ascii) (tok : string) (s : string)
  : list string :=
  match s with
  | EmptyString => if String.eqb tok "" then [] else [tok]
  | String c r =>
      if existsb (Ascii.eqb c) delim then
        if String.eqb tok "" then strtok_from delim "" r
        else tok :: strtok_from delim "" r
      else strtok_from delim (tok +:+ String c "") r
  end.

Definition strtok (str : string) (delim : string) : list string :=
  strtok_from (list_ascii_of_string delim) "" str.

(** ** Events *)

Inductive RowsKind := WRITE_ROWS_EVENT_V1 | UPDATE_ROWS_EVENT_V1 | DELETE_ROWS_EVENT_V1.

(** [MARIADB_RPL_EVENT]: the tag [event_type] with the members of the union
    that the replicator reads. *)
Inductive Event :=
  | GTID_EVENT (server_id domain_id sequence_nr flags : N)
  | XID_EVENT (transaction_nr : N)
  | TABLE_MAP_EVENT (table_id : N) (database table : string)
  | QUERY_EVENT (database statement : string)
  | ROWS_EVENT (kind : RowsKind) (table_id : N)
  | OTHER_EVENT (event_type : N).

Definition IMPLICIT_COMMIT_FLAG : N := 1.

Definition to_gtid_string (server_id domain_id sequence_nr : N) : string :=
  ostream_put domain_id +:+ "-" +:+ ostream_put server_id +:+ "-"
    +:+ ostream_put sequence_nr.

(** ** Build configuration *)

(** [mxb_assert] (maxbase/assert.h) is not among the sources; it is taken
    with its two readings: the process aborts on a false condition in a
    debug build ([SS_DEBUG]), and the check is compiled out otherwise. *)
Definition mxb_assert (SS_DEBUG : bool) (cond : bool) : result unit :=
  if SS_DEBUG && negb cond then Crash else Done tt.

(** ** gtid_list_is_newer *)

Fixpoint gtid_list_loop (SS_DEBUG : bool) (lhs_parts : list string)
    (gtid_list : list string) : result bool :=
  match gtid_list with
  | [] => Done false
  | a :: rest =>
      let rhs_parts := strtok a "-" in
      _ ← mxb_assert SS_DEBUG (Nat.eqb (length lhs_parts) (length rhs_parts));
      l0 ← vec_at lhs_parts 0;
      r0 ← vec_at rhs_parts 0;
      if String.eqb l0 r0 then
        l2 ← vec_at lhs_parts 2;
        r2 ← vec_at rhs_parts 2;
        let lhs := strtoull l2 in
        let rhs := strtoull r2 in
        if lhs <? rhs then Done true
        else gtid_list_loop SS_DEBUG lhs_parts rest
      else gtid_list_loop SS_DEBUG lhs_parts rest
  end.

Definition gtid_list_is_newer (SS_DEBUG : bool) (gtid : string)
    (gtid_list : list string) : result bool :=
  gtid_list_loop SS_DEBUG (strtok gtid "-") gtid_list.

(** A transaction identifier as the server emits it. *)
Record Gtid := { domain : N; server : N; sequence : N }.

Definition render (g : Gtid) : string :=
  to_gtid_string (server g) (domain g) (sequence g).

Definition wf_gtid (g : Gtid) : Prop :=
  domain g < 2 ^ 32 ∧ server g < 2 ^ 32 ∧ sequence g < 2 ^ 64.

(** ** Collaborators and build

    [SQLExecutor], [Table] (executor.hh, table.hh) and the query classifier
    are used by the replicator through a handful of calls only; they are
    taken as parameters.  [executor_commit] and [table_commit] return the
    success flag together with the collaborator's next state, [Table_open]
    returns [None] where the C++ call throws [mcsapi::ColumnStoreError]. *)

Record Config := {
  cnf_gtid : string;            (* mariadb.gtid: starting GTID *)
  cnf_tables : list string;     (* mariadb.tables: accepted tables *)
  cnf_server_id : N
}.

Class Environment := {
  SS_DEBUG : bool;
  SQLExecutor : Type;
  Table : Type;
  executor_enqueue : Event → SQLExecutor → SQLExecutor;
  executor_commit : SQLExecutor → bool * SQLExecutor;
  executor_rollback : SQLExecutor → SQLExecutor;
  Table_open : Config → Event → option Table;
  table_enqueue : Event → Table → Table;
  table_commit : Table → bool * Table;
  table_rollback : Table → Table;
  qc_get_table_names : string → list string
}.

(** ** Files and errno *)

Definition ENOENT : Z := 2%Z.
Definition EACCES : Z := 13%Z.

(** The part of the file system the replicator touches: the regular files
    with their content, the paths that cannot be opened, and whether
    [rename] fails. *)
Record Disk := {
  files : gmap string string;
  denied : list string;
  rename_fails : bool
}.

Definition path_denied (d : Disk) (path : string) : bool :=
  existsb (String.eqb path) (denied d).

(** [std::ifstream(path)]: the content when the file opens; a failed open
    leaves its reason in [errno], a successful one leaves [errno] alone. *)
Definition ifstream_open (d : Disk) (path : string) (errno : Z)
  : option string * Z :=
  if path_denied d path then (None, EACCES)
  else match files d !! path with
       | Some content => (Some content, errno)
       | None => (None, ENOENT)
       end.

Fixpoint take_word (s : string) : string :=
  match s with
  | String c r => if isspace c then "" else String c (take_word r)
  | EmptyString => ""
  end.

(** [stream >> str]: skip white space, then read up to the next white space;
    the stream fails when no character could be extracted. *)
Definition extract_word (content : string) : option string :=
  match skip_space content with
  | EmptyString => None
  | s => Some (take_word s)
  end.

(** ** The replicator object *)

Inductive State := BULK | STMT.
Inductive Skip := NONE | ALL | NEXT_TRX | NEXT_STMT.

#[global] Instance State_eq_dec : EqDecision State.
Proof. solve_decision. Defined.
#[global] Instance Skip_eq_dec : EqDecision Skip.
Proof. solve_decision. Defined.

(** An open replication connection; it remembers the position it was
    started from. *)
Record SQL := { slave_connect_state : string }.

Section Replicator.
Context `{Env : Environment}.

(** [Replicator::Imp], followed by the two pieces of process state its
    methods read and write: the disk and the thread's [errno]. *)
Record Imp := {
  m_cnf : Config;
  m_sql : option SQL;
  m_running : bool;
  m_gtid : string;
  m_current_gtid : string;
  m_tables : list (N * option Table);
  m_executor : SQLExecutor;
  m_state : State;
  m_implicit_commit : bool;
  m_skip : Skip;
  disk : Disk;
  errno : Z
}.

Definition set_sql (v : option SQL) (s : Imp) : Imp :=
  {| m_cnf := m_cnf s; m_sql := v; m_running := m_running s; m_gtid := m_gtid s;
     m_current_gtid := m_current_gtid s; m_tables := m_tables s;
     m_executor := m_executor s; m_state := m_state s;
     m_implicit_commit := m_implicit_commit s; m_skip := m_skip s;
     disk := disk s; errno := errno s |}.
Definition set_running (v : bool) (s : Imp) : Imp :=
  {| m_cnf := m_cnf s; m_sql := m_sql s; m_running := v; m_gtid := m_gtid s;
     m_current_gtid := m_current_gtid s; m_tables := m_tables s;
     m_executor := m_executor s; m_state := m_state s;
     m_implicit_commit := m_implicit_commit s; m_skip := m_skip s;
     disk := disk s; errno := errno s |}.
Definition set_gtid (v : string) (s : Imp) : Imp :=
  {| m_cnf := m_cnf s; m_sql := m_sql s; m_running := m_running s; m_gtid := v;
     m_current_gtid := m_current_gtid s; m_tables := m_tables s;
     m_executor := m_executor s; m_state := m_state s;
     m_implicit_commit := m_implicit_commit s; m_skip := m_skip s;
     disk := disk s; errno := errno s |}.
Definition set_current_gtid (v : string) (s : Imp) : Imp :=
  {| m_cnf := m_cnf s; m_sql := m_sql s; m_running := m_running s; m_gtid := m_gtid s;
     m_current_gtid := v; m_tables := m_tables s;
     m_executor := m_executor s; m_state := m_state s;
     m_implicit_commit := m_implicit_commit s; m_skip := m_skip s;
     disk := disk s; errno := errno s |}.
Definition set_tables (v : list (N * option Table)) (s : Imp) : Imp :=
  {| m_cnf := m_cnf s; m_sql := m_sql s; m_running := m_running s; m_gtid := m_gtid s;
     m_current_gtid := m_current_gtid s; m_tables := v;
     m_executor := m_executor s; m_state := m_state s;
     m_implicit_commit := m_implicit_commit s; m_skip := m_skip s;
     disk := disk s; errno := errno s |}.
Definition set_executor (v : SQLExecutor) (s : Imp) : Imp :=
  {| m_cnf := m_cnf s; m_sql := m_sql s; m_running := m_running s; m_gtid := m_gtid s;
     m_current_gtid := m_current_gtid s; m_tables := m_tables s;
     m_executor := v; m_state := m_state s;
     m_implicit_commit := m_implicit_commit s; m_skip := m_skip s;
     disk := disk s; errno := errno s |}.
Definition set_mode (v : State) (s : Imp) : Imp :=
  {| m_cnf := m_cnf s; m_sql := m_sql s; m_running := m_running s; m_gtid := m_gtid s;
     m_current_gtid := m_current_gtid s; m_tables := m_tables s;
     m_executor := m_executor s; m_state := v;
     m_implicit_commit := m_implicit_commit s; m_skip := m_skip s;
     disk := disk s; errno := errno s |}.
Definition set_implicit_commit (v : bool) (s : Imp) : Imp :=
  {| m_cnf := m_cnf s; m_sql := m_sql s; m_running := m_running s; m_gtid := m_gtid s;
     m_current_gtid := m_current_gtid s; m_tables := m_tables s;
     m_executor := m_executor s; m_state := m_state s;
     m_implicit_commit := v; m_skip := m_skip s;
     disk := disk s; errno := errno s |}.
Definition set_skip (v : Skip) (s : Imp) : Imp :=
  {| m_cnf := m_cnf s; m_sql := m_sql s; m_running := m_running s; m_gtid := m_gtid s;
     m_current_gtid := m_current_gtid s; m_tables := m_tables s;
     m_executor := m_executor s; m_state := m_state s;
     m_implicit_commit := m_implicit_commit s; m_skip := v;
     disk := disk s; errno := errno s |}.
Definition set_disk (v : Disk) (s : Imp) : Imp :=
  {| m_cnf := m_cnf s; m_sql := m_sql s; m_running := m_running s; m_gtid := m_gtid s;
     m_current_gtid := m_current_gtid s; m_tables := m_tables s;
     m_executor := m_executor s; m_state := m_state s;
     m_implicit_commit := m_implicit_commit s; m_skip := m_skip s;
     disk := v; errno := errno s |}.
Definition set_errno (v : Z) (s : Imp) : Imp :=
  {| m_cnf := m_cnf s; m_sql := m_sql s; m_running := m_running s; m_gtid := m_gtid s;
     m_current_gtid := m_current_gtid s; m_tables := m_tables s;
     m_executor := m_executor s; m_state := m_state s;
     m_implicit_commit := m_implicit_commit s; m_skip := m_skip s;
     disk := disk s; errno := v |}.

(** The newline that [std::endl] writes. *)
Definition endl : string := String "010"%char "".

Definition STATEFILE_DIR : string := "./".
Definition STATEFILE_NAME : string := "current_gtid.txt".
Definition STATEFILE_TMP_SUFFIX : string := ".tmp".

(** The object right after construction: [m_gtid] starts as the configured
    GTID, the mode is [STMT], nothing is skipped. *)
Definition Imp_new (cnf : Config) (executor : SQLExecutor) (d : Disk) (e : Z) : Imp :=
  {| m_cnf := cnf; m_sql := None; m_running := true; m_gtid := cnf_gtid cnf;
     m_current_gtid := ""; m_tables := []; m_executor := executor;
     m_state := STMT; m_implicit_commit := false; m_skip := NONE;
     disk := d; errno := e |}.

Definition ok (s : Imp) : bool := m_running s.

(** ** The table registry ([std::unordered_map<uint64_t, std::unique_ptr<Table>>])

    The entries are kept in the order the container iterates them; a null
    [unique_ptr] is [None]. *)

Fixpoint tables_find (id : N) (l : list (N * option Table)) : option (option Table) :=
  match l with
  | [] => None
  | (k, slot) :: rest => if k =? id then Some slot else tables_find id rest
  end.

(** [m_tables[id]] used as an rvalue: a missing key is inserted with a null
    pointer. *)
Definition tables_index (id : N) (l : list (N * option Table)) : list (N * option Table) :=
  match tables_find id l with
  | Some _ => l
  | None => l ++ [(id, None)]
  end.

Fixpoint tables_replace (id : N) (v : option Table) (l : list (N * option Table))
  : list (N * option Table) :=
  match l with
  | [] => []
  | (k, slot) :: rest =>
      if k =? id then (k, v) :: rest else (k, slot) :: tables_replace id v rest
  end.

(** [m_tables[id] = v]. *)
Definition tables_assign (id : N) (v : option Table) (l : list (N * option Table))
  : list (N * option Table) :=
  tables_replace id v (tables_index id l).

(** A call through the pointer stored under [id]. *)
Fixpoint tables_call (id : N) (f : Table → Table) (l : list (N * option Table))
  : list (N * option Table) :=
  match l with
  | [] => []
  | (k, slot) :: rest =>
      if k =? id then (k, f <$> slot) :: rest else (k, slot) :: tables_call id f rest
  end.

(** ** The upstream server, as the replies it gives *)

Record BinlogReply := {
  binlog_name : string;
  gtid_pos_ok : bool;       (* SELECT BINLOG_GTID_POS('name', 4) succeeded *)
  gtid_pos_row : string     (* its single column *)
}.

Record ConnectReply := {
  probe_connect_ok : bool;                     (* SQL::connect of the binlog scan *)
  show_binary_logs : option (list BinlogReply);  (* None: the query failed *)
  connect_ok : bool;                           (* SQL::connect of the stream *)
  prepare_ok : bool;                           (* the SET statements *)
  replicate_ok : bool                          (* m_sql->replicate *)
}.

Inductive FetchReply :=
  | Fetched (ev : Event)
  | FetchFailed (errnum : N).

Definition CR_SERVER_LOST : N := 2013.

(** What the server answers during one turn of the event loop. *)
Record Round := { on_connect : ConnectReply; on_fetch : FetchReply }.

(** ** find_binlog_start_gtid *)

Fixpoint scan_binlogs (gtid : string) (binlogs : list BinlogReply)
    (rval : bool) (output : string) : result (bool * string) :=
  match binlogs with
  | [] => Done (rval, output)
  | b :: rest =>
      if gtid_pos_ok b then
        let row := gtid_pos_row b in
        if (2 <? String.length row)%nat then
          let row := substring 1 (String.length row - 2) row in
          let gtids := strtok row "," in
          newer ← gtid_list_is_newer SS_DEBUG gtid gtids;
          if (newer : bool) then Done (rval, output)
          else scan_binlogs gtid rest rval row
        else scan_binlogs gtid rest rval row
      else scan_binlogs gtid rest false output
  end.

Definition find_binlog_start_gtid (s : Imp) (r : ConnectReply) (output : string)
  : result (bool * string) :=
  if probe_connect_ok r then
    match show_binary_logs r with
    | Some binlogs => scan_binlogs (m_gtid s) binlogs true output
    | None => Done (false, output)
    end
  else Done (true, output).

(** ** connect *)

Definition connect (s : Imp) (r : ConnectReply) : result (bool * Imp) :=
  match m_sql s with
  | Some _ => Done (true, s)
  | None =>
      let start : result (option (string * Imp)) :=
        if negb (String.eqb (m_gtid s) "") then
          '(found, start_gtid) ← find_binlog_start_gtid s r "";
          if (found : bool) then Done (Some (start_gtid, set_skip ALL s))
          else Done None
        else Done (Some ("", s)) in
      st ← start;
      match st with
      | None => Done (false, s)
      | Some (start_gtid, s1) =>
          let rval := connect_ok r && prepare_ok r && replicate_ok r in
          if rval
          then Done (true, set_sql (Some {| slave_connect_state := start_gtid |}) s1)
          else Done (false, set_sql None s1)
      end
  end.

(** ** load_gtid_state and save_gtid_state

    A successful [rename] puts the file just written in the place of the
    checkpoint file, so whatever kept the old one from being opened is gone
    with it. *)

Definition load_gtid_state (s : Imp) : bool * Imp :=
  let filename := STATEFILE_DIR +:+ STATEFILE_NAME in
  let '(stream, e) := ifstream_open (disk s) filename (errno s) in
  let s := set_errno e s in
  match stream ≫= extract_word with
  | Some gtid =>
      (true, if negb (String.eqb gtid "") then set_gtid gtid s else s)
  | None =>
      if (e =? ENOENT)%Z then (true, s) else (false, s)
  end.

Definition save_gtid_state (s : Imp) : bool * Imp :=
  let filename := STATEFILE_DIR +:+ STATEFILE_NAME in
  let tmpname := filename +:+ STATEFILE_TMP_SUFFIX in
  let d := disk s in
  if path_denied d tmpname then (false, set_errno EACCES s)
  else
    let content := m_current_gtid s +:+ endl in
    let written := <[tmpname := content]> (files d) in
    if rename_fails d then
      (false, set_errno EACCES
                (set_disk {| files := written; denied := denied d;
                             rename_fails := rename_fails d |} s))
    else
      (true, set_disk {| files := <[filename := content]> (delete tmpname written);
                         denied := List.filter (fun path => negb (String.eqb path filename))
                                     (denied d);
                         rename_fails := rename_fails d |} s).

(** ** commit_transactions *)

Fixpoint commit_tables (l : list (N * option Table)) (rval : bool)
  : result (bool * list (N * option Table)) :=
  match l with
  | [] => Done (rval, [])
  | (id, slot) :: rest =>
      match slot with
      | None => Crash
      | Some t =>
          let '(committed, t') := table_commit t in
          '(rval, rest') ← commit_tables rest (if committed then rval else false);
          Done (rval, (id, Some t') :: rest')
      end
  end.

Definition commit_transactions (s : Imp) : result (bool * Imp) :=
  let '(rval, executor) := executor_commit (m_executor s) in
  '(rval, tables) ← commit_tables (m_tables s) rval;
  let s := set_tables tables (set_executor executor s) in
  if (rval : bool) then Done (save_gtid_state s) else Done (false, s).

(** ** set_state *)

Definition set_state (state : State) (s : Imp) : result (bool * Imp) :=
  if decide (m_state s ≠ state) then
    '(committed, s1) ← commit_transactions s;
    if (committed : bool) then Done (true, set_mode state s1) else Done (false, s1)
  else Done (true, s).

(** ** should_process *)

Definition is_gtid_event (ev : Event) : bool :=
  match ev with GTID_EVENT _ _ _ _ => true | _ => false end.

Definition is_xid_event (ev : Event) : bool :=
  match ev with XID_EVENT _ => true | _ => false end.

Definition has_flag (flags flag : N) : bool := negb (N.land flags flag =? 0).

Definition accepted (cnf : Config) (name : string) : bool :=
  existsb (String.eqb name) (cnf_tables cnf).

Definition has_dot (tbl : string) : bool :=
  existsb (Ascii.eqb "."%char) (list_ascii_of_string tbl).

Fixpoint check_query_tables (cnf : Config) (db : string) (tables : list string)
    (rval : bool) : bool :=
  match tables with
  | [] => rval
  | tbl :: rest =>
      let tbl := if has_dot tbl then tbl else db +:+ "." +:+ tbl in
      check_query_tables cnf db rest (if accepted cnf tbl then rval else false)
  end.

Definition should_process (s : Imp) (ev : Event) : result (bool * Imp) :=
  if decide (m_skip s ≠ NONE) then
    match ev with
    | GTID_EVENT server_id domain_id sequence_nr flags =>
        _ ← mxb_assert SS_DEBUG (bool_decide (m_skip s = ALL));
        let gtid := to_gtid_string server_id domain_id sequence_nr in
        if String.eqb gtid (m_gtid s) then
          Done (false, set_skip (if has_flag flags IMPLICIT_COMMIT_FLAG
                                 then NEXT_STMT else NEXT_TRX) s)
        else
          newer ← gtid_list_is_newer SS_DEBUG (m_gtid s) [gtid];
          if (newer : bool) then Done (false, set_running false s)
          else Done (false, s)
    | _ =>
        if bool_decide (m_skip s = NEXT_STMT)
           || (bool_decide (m_skip s = NEXT_TRX) && is_xid_event ev)
        then Done (false, set_skip NONE s)
        else Done (false, s)
    end
  else if negb (bool_decide (cnf_tables (m_cnf s) = [])) then
    match ev with
    | TABLE_MAP_EVENT _ db tbl =>
        Done (accepted (m_cnf s) (db +:+ "." +:+ tbl), s)
    | QUERY_EVENT db statement =>
        Done (check_query_tables (m_cnf s) db (qc_get_table_names statement) true, s)
    | _ => Done (true, s)
    end
  else Done (true, s).

(** ** process_one_event

    In the table-map case the new table is opened before the registry is
    indexed, so an open that throws leaves the registry as it was.  In the
    rows case [t] refers to the registry entry, which [commit_transactions]
    may update under it: the entry is looked up again for the enqueue. *)

Definition process_one_event (s : Imp) (ev : Event) : result (bool * Imp) :=
  match ev with
  | GTID_EVENT server_id domain_id sequence_nr flags =>
      let s := if has_flag flags IMPLICIT_COMMIT_FLAG
               then set_implicit_commit true s else s in
      Done (true, set_current_gtid (to_gtid_string server_id domain_id sequence_nr) s)
  | XID_EVENT _ =>
      '(rval, s1) ← commit_transactions s;
      if (rval : bool) then Done (true, set_gtid (m_current_gtid s1) s1)
      else Done (false, s1)
  | TABLE_MAP_EVENT table_id _ _ =>
      match Table_open (m_cnf s) ev with
      | Some t => Done (true, set_tables (tables_assign table_id (Some t) (m_tables s)) s)
      | None => Done (false, s)
      end
  | QUERY_EVENT _ _ =>
      '(rval, s1) ← set_state STMT s;
      if (rval : bool) then
        let s2 := set_executor (executor_enqueue ev (m_executor s1)) s1 in
        if m_implicit_commit s2 then
          let s3 := set_gtid (m_current_gtid s2) (set_implicit_commit false s2) in
          commit_transactions s3
        else Done (true, s2)
      else Done (false, s1)
  | ROWS_EVENT _ table_id =>
      let s1 := set_tables (tables_index table_id (m_tables s)) s in
      match tables_find table_id (m_tables s1) with
      | Some (Some _) =>
          '(rval, s2) ← set_state BULK s1;
          if (rval : bool) then
            Done (true, set_tables
                          (tables_call table_id (table_enqueue ev) (m_tables s2)) s2)
          else Done (false, s2)
      | _ => Done (true, s1)
      end
  | OTHER_EVENT _ => Done (true, s)
  end.

(** ** process_events *)

Fixpoint rollback_tables (l : list (N * option Table)) : result (list (N * option Table)) :=
  match l with
  | [] => Done []
  | (id, slot) :: rest =>
      match slot with
      | None => Crash
      | Some t =>
          rest' ← rollback_tables rest;
          Done ((id, Some (table_rollback t)) :: rest')
      end
  end.

(** The part of the loop body that handles a fetched event. *)
Definition handle_event (s : Imp) (ev : Event) : result Imp :=
  '(wanted, s1) ← should_process s ev;
  if (wanted : bool) then
    '(processed, s2) ← process_one_event s1 ev;
    if (processed : bool) then Done s2 else Done (set_running false s2)
  else Done s1.

(** How the worker stands when the recorded replies are used up: it has left
    the loop, or it is still inside it waiting for the server. *)
Inductive Worker :=
  | Exited (s : Imp)
  | Waiting (s : Imp).

Fixpoint event_loop (s : Imp) (rounds : list Round) : result Worker :=
  if m_running s then
    match rounds with
    | [] => Done (Waiting s)
    | r :: rest =>
        '(connected, s1) ← connect s (on_connect r);
        if (connected : bool) then
          match on_fetch r with
          | Fetched ev =>
              s2 ← handle_event s1 ev;
              event_loop s2 rest
          | FetchFailed errnum =>
              if errnum =? CR_SERVER_LOST then event_loop (set_sql None s1) rest
              else Done (Exited s1)
          end
        else event_loop s1 rest
    end
  else Done (Exited s).

Definition process_events (s : Imp) (rounds : list Round) : result Worker :=
  let '(loaded, s) := load_gtid_state s in
  let s := if loaded then s else set_running false s in
  w ← event_loop s rounds;
  match w with
  | Waiting s => Done (Waiting s)
  | Exited s =>
      let s := set_executor (executor_rollback (m_executor s)) s in
      tables ← rollback_tables (m_tables s);
      Done (Exited (set_tables tables s))
  end.

End Replicator.

(** ** A recording downstream

    A small instance of the collaborators on which the model runs on
    concrete input: the executor and the tables keep what was enqueued and
    what was committed, and commit as their [healthy] flag says. *)

Record Sink := {
  label : string;
  pending : list Event;
  applied : list Event;
  healthy : bool
}.

Definition sink_enqueue (ev : Event) (k : Sink) : Sink :=
  {| label := label k; pending := pending k ++ [ev]; applied := applied k;
     healthy := healthy k |}.

Definition sink_commit (k : Sink) : bool * Sink :=
  if healthy k
  then (true, {| label := label k; pending := []; applied := applied k ++ pending k;
                 healthy := true |})
  else (false, k).

Definition sink_rollback (k : Sink) : Sink :=
  {| label := label k; pending := []; applied := applied k; healthy := healthy k |}.

(** Opening succeeds for every table-map event except those of the database
    [rejected]; tables of the database [flaky] open but cannot commit. *)
Definition sink_open (cnf : Config) (ev : Event) : option Sink :=
  match ev with
  | TABLE_MAP_EVENT _ db tbl =>
      if String.eqb db "rejected" then None
      else Some {| label := db +:+ "." +:+ tbl; pending := []; applied := [];
                   healthy := negb (String.eqb db "flaky") |}
  | _ => None
  end.

Definition sql_keyword (w : string) : bool :=
  existsb (String.eqb w) ["INTO"; "FROM"; "TABLE"; "UPDATE"].

(** A stand-in for the query classifier: the table names of a statement are
    the words that follow [INTO], [FROM], [TABLE] or [UPDATE]. *)
Fixpoint names_after_keywords (ws : list string) : list string :=
  match ws with
  | [] => []
  | w :: rest =>
      match rest with
      | n :: _ => if sql_keyword w then n :: names_after_keywords rest
                  else names_after_keywords rest
      | [] => []
      end
  end.

Definition recording (debug : bool) : Environment :=
  {| SS_DEBUG := debug;
     SQLExecutor := Sink;
     Table := Sink;
     executor_enqueue := sink_enqueue;
     executor_commit := sink_commit;
     executor_rollback := sink_rollback;
     Table_open := sink_open;
     table_enqueue := sink_enqueue;
     table_commit := sink_commit;
     table_rollback := sink_rollback;
     qc_get_table_names := fun stmt => names_after_keywords (strtok stmt " ") |}.

Definition empty_sink (name : string) (ok : bool) : Sink :=
  {| label := name; pending := []; applied := []; healthy := ok |}.

Definition plain_disk (fs : gmap string string) : Disk :=
  {| files := fs; denied := []; rename_fails := false |}.

Definition statefile : string := "./current_gtid.txt".

Definition no_filter (gtid : string) : Config :=
  {| cnf_gtid := gtid; cnf_tables := []; cnf_server_id := 1 |}.

(** The server accepts the connection and has no binary logs to list. *)
Definition accept : ConnectReply :=
  {| probe_connect_ok := true; show_binary_logs := Some []; connect_ok := true;
     prepare_ok := true; replicate_ok := true |}.

Definition deliver (ev : Event) : Round := {| on_connect := accept; on_fetch := Fetched ev |}.

(** ** Sample states and replies *)

Definition snapshot (debug : bool) (cnf : Config) (gtid current : string)
    (tables : list (N * option Sink)) (executor : Sink) (mode : State)
    (implicit : bool) (skip : Skip) (d : Disk) : @Imp (recording debug) :=
  @Build_Imp (recording debug) cnf (Some {| slave_connect_state := "" |})
    true gtid current tables executor mode implicit skip d 0%Z.

(** A disk whose checkpoint file holds [gtid]. *)
Definition checkpointed (gtid : string) : Disk :=
  plain_disk {[ statefile := gtid +:+ endl ]}.

(** The worker before its first turn. *)
Definition fresh (debug : bool) (cnf : Config) (d : Disk) : @Imp (recording debug) :=
  @Imp_new (recording debug) cnf (empty_sink "executor" true) d 0%Z.

Definition write_rows (id : N) : Event := ROWS_EVENT WRITE_ROWS_EVENT_V1 id.

Definition insert_a : Event := QUERY_EVENT "db" "INSERT INTO db.a VALUES (1)".
Definition create_b : Event := QUERY_EVENT "db" "CREATE TABLE db.b (x INT)".

(** Two open tables in [BULK] mode: the first cannot commit, the second has
    a row batch pending. *)
Definition two_tables : @Imp (recording false) :=
  snapshot false (no_filter "") "0-1-10" "0-1-11"
    [(7, Some (empty_sink "flaky.t" false));
     (8, Some (sink_enqueue (write_rows 8) (empty_sink "db.u" true)))]
    (empty_sink "executor" true) BULK false NONE (checkpointed "0-1-10").

(** Resuming after [0-1-10], in the given skip state. *)
Definition skipping (debug : bool) (skip : Skip) : @Imp (recording debug) :=
  snapshot debug (no_filter "0-1-10") "0-1-10" "" [] (empty_sink "executor" true)
    STMT false skip (checkpointed "0-1-10").

(** A statement arrives with the implicit-commit flag set and an executor
    that cannot commit. *)
Definition implicit_flaky : @Imp (recording false) :=
  snapshot false (no_filter "") "0-1-10" "0-1-11" []
    (empty_sink "executor" false) STMT true NONE (checkpointed "0-1-10").

(** Nothing is open yet. *)
Definition no_tables : @Imp (recording false) :=
  snapshot false (no_filter "") "0-1-10" "0-1-11" []
    (empty_sink "executor" true) STMT false NONE (checkpointed "0-1-10").

Definition only_db_a : Config :=
  {| cnf_gtid := ""; cnf_tables := ["db.a"]; cnf_server_id := 1 |}.

Definition ER_MASTER_FATAL_ERROR_READING_BINLOG : N := 1236.

Definition fetch_error (errnum : N) : Round :=
  {| on_connect := accept; on_fetch := FetchFailed errnum |}.

(** A downstream whose executor refuses to commit a statement on the
    database [rejected], and otherwise behaves as the recording one. *)
Definition refused_statement (ev : Event) : bool :=
  match ev with
  | QUERY_EVENT db _ => String.eqb db "rejected"
  | _ => false
  end.

Definition choosy_commit (k : Sink) : bool * Sink :=
  if existsb refused_statement (pending k) then (false, k) else sink_commit k.

Definition choosy (debug : bool) : Environment :=
  {| SS_DEBUG := debug;
     SQLExecutor := Sink;
     Table := Sink;
     executor_enqueue := sink_enqueue;
     executor_commit := choosy_commit;
     executor_rollback := sink_rollback;
     Table_open := sink_open;
     table_enqueue := sink_enqueue;
     table_commit := sink_commit;
     table_rollback := sink_rollback;
     qc_get_table_names := fun stmt => names_after_keywords (strtok stmt " ") |}.

(** [BULK] mode after a committed transaction of row events; the GTID
    [0-1-11] with the implicit-commit flag has just been seen. *)
Definition bulk_implicit : @Imp (choosy false) :=
  @Build_Imp (choosy false) (no_filter "") (Some {| slave_connect_state := "" |})
    true "0-1-10" "0-1-11" [(7, Some (empty_sink "db.t" true))]
    (empty_sink "executor" true) BULK true NONE (checkpointed "0-1-10") 0%Z.

Definition create_rejected : Event := QUERY_EVENT "rejected" "CREATE TABLE t (x INT)".

(** Only [db.a] is accepted; nothing is configured or stored to resume from. *)
Definition only_a_start : @Imp (recording false) :=
  fresh false only_db_a (plain_disk ∅).

(** ** Vocabulary of the statements *)

Fixpoint digits_only (s : string) : bool :=
  match s with
  | String c r => match digit_val c with Some _ => digits_only r | None => false end
  | EmptyString => true
  end.

(** [c] is in the domain of [target] and has a greater sequence number. *)
Definition newer_than (target c : Gtid) : bool :=
  (domain target =? domain c) && (sequence target <? sequence c).

Section Vocabulary.
Context `{Env : Environment}.

(** Every entry of the registry holds an open table (no null pointer). *)
Definition all_open (l : list (N * option Table)) : bool :=
  forallb (fun e => match e.2 with Some _ => true | None => false end) l.

(** What one turn of the commit loop does to an entry, and whether the
    table reports success. *)
Definition commit_slot (e : N * option Table) : N * option Table :=
  (e.1, (fun t => (table_commit t).2) <$> e.2).

Definition slot_commits (e : N * option Table) : bool :=
  match e.2 with
  | Some t => (table_commit t).1
  | None => false
  end.

(** The state in which [commit_transactions] decides about the checkpoint:
    the executor and every table have been asked to commit. *)
Definition after_commits (s : Imp) : Imp :=
  set_tables (map commit_slot (m_tables s))
    (set_executor (executor_commit (m_executor s)).2 s).

Definition all_committed (s : Imp) : bool :=
  (executor_commit (m_executor s)).1 && forallb slot_commits (m_tables s).

(** The checkpoint can be replaced: the temporary file opens and [rename]
    works. *)
Definition writable (d : Disk) : bool :=
  negb (path_denied d ((STATEFILE_DIR +:+ STATEFILE_NAME) +:+ STATEFILE_TMP_SUFFIX))
  && negb (rename_fails d).

Definition checkpoint (s : Imp) : option string :=
  files (disk s) !! (STATEFILE_DIR +:+ STATEFILE_NAME).

(** [s'] is [s] up to the skip state and the running flag. *)
Definition only_skip_and_running (s s' : Imp) : Prop :=
  s' = set_running (m_running s') (set_skip (m_skip s') s).

End Vocabulary.

(** ** Vocabulary of the further statements *)

Fixpoint spaceless (s : string) : bool :=
  match s with
  | String c r => negb (isspace c) && spaceless r
  | EmptyString => true
  end.

(** The start position a binary log stands for: the answer of
    [BINLOG_GTID_POS] without its first and last character when it is
    longer than two characters, and the answer itself otherwise. *)
Definition binlog_start (b : BinlogReply) : string :=
  let row := gtid_pos_row b in
  if (2 <? String.length row)%nat
  then substring 1 (String.length row - 2) row
  else row.

Section MoreVocabulary.
Context `{Env : Environment}.

(** Whether the scan finds the target crossed at the start of [b]. *)
Definition binlog_crossed (gtid : string) (b : BinlogReply) : result bool :=
  if (2 <? String.length (gtid_pos_row b))%nat
  then gtid_list_is_newer SS_DEBUG gtid (strtok (binlog_start b) ",")
  else Done false.

Definition tmpfile : string :=
  (STATEFILE_DIR +:+ STATEFILE_NAME) +:+ STATEFILE_TMP_SUFFIX.

(** A table name of a statement, qualified by the default database when it
    carries no dot. *)
Definition qualified (db tbl : string) : string :=
  if has_dot tbl then tbl else db +:+ "." +:+ tbl.

(** The verdict of the table filter on an event. *)
Definition passes_filter (cnf : Config) (ev : Event) : bool :=
  match cnf_tables cnf with
  | [] => true
  | _ =>
      match ev with
      | TABLE_MAP_EVENT _ db tbl => accepted cnf (db +:+ "." +:+ tbl)
      | QUERY_EVENT db statement =>
          forallb (fun tbl => accepted cnf (qualified db tbl))
                  (qc_get_table_names statement)
      | _ => true
      end
  end.

Definition rollback_slot (e : N * option Table) : N * option Table :=
  (e.1, table_rollback <$> e.2).


Definition is_query_event (ev : Event) : bool :=
  match ev with QUERY_EVENT _ _ => true | _ => false end.

Definition is_rows_event (ev : Event) : bool :=
  match ev with ROWS_EVENT _ _ => true | _ => false end.

(** The server delivers [ev] on an open connection; [c] is what it would
    answer to a connection attempt. *)
Definition delivery (c : ConnectReply) (ev : Event) : Round :=
  {| on_connect := c; on_fetch := Fetched ev |}.

(** The GTID an event announces, and the GTIDs the server sent in [rounds]. *)
Definition gtid_of (ev : Event) : list string :=
  match ev with
  | GTID_EVENT server_id domain_id sequence_nr _ =>
      [to_gtid_string server_id domain_id sequence_nr]
  | _ => []
  end.

Definition gtids_sent (rounds : list Round) : list string :=
  flat_map (fun r => match on_fetch r with
                     | Fetched ev => gtid_of ev
                     | FetchFailed _ => []
                     end) rounds.

Definition worker_state (w : Worker) : Imp :=
  match w with
  | Exited s => s
  | Waiting s => s
  end.

(** The text names one of the GTIDs [seen]. *)
Definition names_one_of (seen : list string) (text : option string) : Prop :=
  ∃ g, In g seen ∧ text = Some (g +:+ endl).

End MoreVocabulary.

Definition same_gtid (a b : Gtid) : bool :=
  (server a =? server b) && (domain a =? domain b) && (sequence a =? sequence b).

(** ** ClustrixNodeInfo (clustrixnodeinfo.hh)

    The node keeps a countdown of failed health checks.  [SERVER] with its
    status bits is declared elsewhere; its two calls are parameters, and
    the server the node points to is passed in and out. *)

Class ServerApi := {
  SERVER : Type;
  SERVER_RUNNING : Z;
  set_status : Z → SERVER → SERVER;
  clear_status : Z → SERVER → SERVER
}.

Module Clustrix.
Section Node.
Context `{Api : ServerApi}.

Record ClustrixNodeInfo := {
  m_id : Z;
  m_ip : string;
  m_mysql_port : Z;
  m_health_port : Z;
  m_health_check_threshold : Z;
  m_nRunning : Z
}.

(** The constructor: the countdown starts at the threshold. *)
Definition create (id : Z) (ip : string) (mysql_port health_port : Z)
    (health_check_threshold : Z) : ClustrixNodeInfo :=
  {| m_id := id; m_ip := ip; m_mysql_port := mysql_port;
     m_health_port := health_port;
     m_health_check_threshold := health_check_threshold;
     m_nRunning := health_check_threshold |}.

Definition with_nRunning (v : Z) (n : ClustrixNodeInfo) : ClustrixNodeInfo :=
  {| m_id := m_id n; m_ip := m_ip n; m_mysql_port := m_mysql_port n;
     m_health_port := m_health_port n;
     m_health_check_threshold := m_health_check_threshold n;
     m_nRunning := v |}.

Definition is_running (n : ClustrixNodeInfo) : bool := (0 <? m_nRunning n)%Z.

Definition set_running (running : bool) (n : ClustrixNodeInfo) (server : SERVER)
  : ClustrixNodeInfo * SERVER :=
  if running then
    (with_nRunning (m_health_check_threshold n) n, set_status SERVER_RUNNING server)
  else if (0 <? m_nRunning n)%Z then
    let n' := with_nRunning (m_nRunning n - 1)%Z n in
    if (m_nRunning n' =? 0)%Z
    then (n', clear_status SERVER_RUNNING server)
    else (n', server)
  else (n, server).

(** [k] health checks in a row that fail. *)
Fixpoint failed_checks (k : nat) (p : ClustrixNodeInfo * SERVER)
  : ClustrixNodeInfo * SERVER :=
  match k with
  | O => p
  | S k' => failed_checks k' (set_running false p.1 p.2)
  end.

End Node.
End Clustrix.

(** Status words as bit sets. *)
Definition status_bits : ServerApi :=
  {| SERVER := Z; SERVER_RUNNING := 1%Z;
     set_status := fun bit status => Z.lor status bit;
     clear_status := fun bit status => Z.land status (Z.lnot bit) |}.

Definition DEFAULT_HEALTH_CHECK_THRESHOLD_VALUE : Z := 2%Z.
Definition DEFAULT_HEALTH_CHECK_PORT_VALUE : Z := 3581%Z.

Definition sample_node : @Clustrix.ClustrixNodeInfo :=
  Clustrix.create 1 "10.0.0.1" 3306 DEFAULT_HEALTH_CHECK_PORT_VALUE
    DEFAULT_HEALTH_CHECK_THRESHOLD_VALUE.

(** ** Further sample states and replies *)

Definition binlog (name row : string) : BinlogReply :=
  {| binlog_name := name; gtid_pos_ok := true; gtid_pos_row := row |}.

Definition four_binlogs : list BinlogReply :=
  [binlog "bin.000001" "(0-1-50)"; binlog "bin.000002" "(0-1-90)";
   binlog "bin.000003" "(0-1-150)"; binlog "bin.000004" "(0-1-200)"].

Definition accept_with (logs : list BinlogReply) : ConnectReply :=
  {| probe_connect_ok := true; show_binary_logs := Some logs; connect_ok := true;
     prepare_ok := true; replicate_ok := true |}.

(** One open table, [STMT] mode. *)
Definition stmt_with_table : @Imp (recording false) :=
  snapshot false (no_filter "") "0-1-10" "0-1-11"
    [(7, Some (empty_sink "db.t" true))]
    (empty_sink "executor" true) STMT false NONE (checkpointed "0-1-10").

(** A worker that is to resume after [0-1-100] and has no connection yet. *)
Definition resuming : @Imp (recording false) :=
  fresh false (no_filter "0-1-100") (plain_disk ∅).

Definition filtering : @Imp (recording false) :=
  fresh false only_db_a (plain_disk ∅).

(** A worker that finds an empty checkpoint file. *)
Definition blank_start : @Imp (recording false) :=
  fresh false (no_filter "0-1-10") (plain_disk {[ statefile := "" ]}).

(** A worker without checkpoint, configured GTID or table list. *)
Definition plain_start : @Imp (recording false) :=
  fresh false (no_filter "") (plain_disk ∅).

(** * Properties *)

(** ** The transaction-identifier codec *)

Lemma small_cases (d : N) : d < 10 →
  d = 0 ∨ d = 1 ∨ d = 2 ∨ d = 3 ∨ d = 4 ∨ d = 5 ∨ d = 6 ∨ d = 7 ∨ d = 8 ∨ d = 9.
Proof. lia. Qed.

Ltac each_digit d H :=
  destruct (small_cases d H) as [->|[->|[->|[->|[->|[->|[->|[->|[->| ->]]]]]]]]].

Lemma digit_val_to_ascii d : d < 10 → digit_val (digit_to_ascii d) = Some d.
Proof. intros H. each_digit d H; reflexivity. Qed.

Lemma digit_not_dash d : d < 10 → Ascii.eqb (digit_to_ascii d) "-"%char = false.
Proof. intros H. each_digit d H; reflexivity. Qed.

Lemma digit_val_cases c d :
  digit_val c = Some d →
  isspace c = false ∧ Ascii.eqb c "-"%char = false ∧ c ≠ "+"%char ∧ c ≠ "-"%char.
Proof.
  unfold digit_val, isspace. intros H.
  destruct (48 <=? N_of_ascii c) eqn:Hlo; [|discriminate].
  destruct (N_of_ascii c <=? 57) eqn:Hhi; [|discriminate].
  apply N.leb_le in Hlo, Hhi.
  assert (Hne : ∀ c', N_of_ascii c' < 48 → c ≠ c') by (intros c' Hc' ->; lia).
  repeat split.
  - destruct (N.eqb_spec (N_of_ascii c) 32); [lia|].
    destruct (N.leb_spec (N_of_ascii c) 13); [lia|].
    by rewrite andb_false_r.
  - apply Ascii.eqb_neq, Hne. by vm_compute.
  - apply Hne. by vm_compute.
  - apply Hne. by vm_compute.
Qed.

Lemma mod10_lt n : n mod 10 < 10.
Proof. apply N.mod_lt. lia. Qed.

Lemma put_decimal_digits fuel : ∀ n acc,
  digits_only (put_decimal fuel n acc) = digits_only acc.
Proof.
  induction fuel as [|fuel IH]; intros n acc; [reflexivity|].
  cbn [put_decimal]. destruct (n / 10 =? 0).
  - cbn [digits_only]. by rewrite digit_val_to_ascii by apply mod10_lt.
  - rewrite IH. cbn [digits_only]. by rewrite digit_val_to_ascii by apply mod10_lt.
Qed.

Lemma put_decimal_nonempty fuel : ∀ n acc, acc ≠ "" → put_decimal fuel n acc ≠ "".
Proof.
  induction fuel as [|fuel IH]; intros n acc Hacc; [done|].
  cbn [put_decimal]. destruct (n / 10 =? 0); [done|]. by apply IH.
Qed.

Lemma put_decimal_value fuel : ∀ n, n < 2 ^ N.of_nat fuel →
  ∃ k, ∀ acc a,
    digits_value a (put_decimal fuel n acc) = digits_value (a * 10 ^ k + n) acc.
Proof.
  induction fuel as [|fuel IH]; intros n Hn.
  - exists 0. intros acc a. cbn [put_decimal].
    change (2 ^ N.of_nat 0) with 1 in Hn. f_equal. lia.
  - cbn [put_decimal]. destruct (N.eqb_spec (n / 10) 0) as [Hz|Hz].
    + exists 1. intros acc a. cbn [digits_value].
      rewrite digit_val_to_ascii by apply mod10_lt. f_equal.
      pose proof (N.div_mod n 10 ltac:(lia)). lia.
    + destruct (IH (n / 10)) as [k Hk].
      { rewrite Nat2N.inj_succ, N.pow_succ_r' in Hn.
        apply N.Div0.div_lt_upper_bound. lia. }
      exists (N.succ k). intros acc a. rewrite Hk. cbn [digits_value].
      rewrite digit_val_to_ascii by apply mod10_lt. f_equal.
      rewrite N.pow_succ_r'. pose proof (N.div_mod n 10 ltac:(lia)). lia.
Qed.

Lemma log2_fuel n : n < 2 ^ N.of_nat (S (N.to_nat (N.log2 n))).
Proof.
  rewrite Nat2N.inj_succ, N2Nat.id.
  destruct (N.eq_dec n 0) as [->|Hn]; [reflexivity|].
  apply N.log2_spec. lia.
Qed.

Lemma ostream_put_value n : digits_value 0 (ostream_put n) = n.
Proof.
  unfold ostream_put.
  destruct (put_decimal_value _ n (log2_fuel n)) as [k Hk].
  rewrite Hk. cbn [digits_value]. lia.
Qed.

Lemma ostream_put_digits n : digits_only (ostream_put n) = true.
Proof. unfold ostream_put. by rewrite put_decimal_digits. Qed.

Lemma ostream_put_nonempty n : ostream_put n ≠ "".
Proof.
  unfold ostream_put. cbn [put_decimal].
  destruct (n / 10 =? 0); [done|]. by apply put_decimal_nonempty.
Qed.

Lemma ostream_put_inj a b : ostream_put a = ostream_put b → a = b.
Proof.
  intros H. rewrite <- (ostream_put_value a), <- (ostream_put_value b). by rewrite H.
Qed.

Lemma ostream_put_eqb a b : String.eqb (ostream_put a) (ostream_put b) = (a =? b).
Proof.
  destruct (N.eqb_spec a b) as [->|Hne].
  - apply String.eqb_refl.
  - apply String.eqb_neq. intros H. by apply Hne, ostream_put_inj.
Qed.

Lemma strtoull_digits s :
  digits_only s = true → s ≠ "" → digits_value 0 s < 2 ^ 64 →
  strtoull s = digits_value 0 s.
Proof.
  intros Hd Hne Hv. destruct s as [|c r]; [done|].
  cbn [digits_only] in Hd. destruct (digit_val c) as [d|] eqn:Hc; [|done].
  destruct (digit_val_cases _ _ Hc) as (Hsp & _ & Hplus & Hminus).
  unfold strtoull. cbn [skip_space]. rewrite Hsp.
  assert (Hsign :
    match String c r with
    | String "-"%char r0 => (true, r0)
    | String "+"%char r0 => (false, r0)
    | _ => (false, String c r)
    end = (false, String c r)).
  { destruct c as [[] [] [] [] [] [] [] []]; try reflexivity; congruence. }
  rewrite Hsign.
  destruct (N.ltb_spec ULLONG_MAX (digits_value 0 (String c r))) as [Hgt|_]; [|done].
  unfold ULLONG_MAX in Hgt. lia.
Qed.

Lemma strtoull_ostream_put n : n < 2 ^ 64 → strtoull (ostream_put n) = n.
Proof.
  intros Hn. rewrite strtoull_digits.
  - apply ostream_put_value.
  - apply ostream_put_digits.
  - apply ostream_put_nonempty.
  - by rewrite ostream_put_value.
Qed.

Lemma append_cons c (a b : string) : String c a +:+ b = String c (a +:+ b).
Proof. reflexivity. Qed.

Lemma append_empty_l (b : string) : "" +:+ b = b.
Proof. reflexivity. Qed.

Lemma append_assoc (a b c : string) : (a +:+ b) +:+ c = a +:+ (b +:+ c).
Proof.
  induction a as [|x a IH]; [done|]. rewrite !append_cons. by rewrite IH.
Qed.

Lemma append_empty_r (a : string) : a +:+ "" = a.
Proof. induction a as [|x a IH]; [done|]. rewrite append_cons. by rewrite IH. Qed.

Lemma strtok_from_digits s : ∀ tok rest,
  digits_only s = true →
  strtok_from ["-"%char] tok (s +:+ rest) = strtok_from ["-"%char] (tok +:+ s) rest.
Proof.
  induction s as [|c r IH]; intros tok rest Hd.
  - by rewrite append_empty_l, append_empty_r.
  - cbn [digits_only] in Hd. destruct (digit_val c) as [d|] eqn:Hc; [|done].
    destruct (digit_val_cases _ _ Hc) as (_ & Hdash & _).
    rewrite append_cons. cbn [strtok_from existsb]. rewrite Hdash. cbn [orb].
    rewrite IH by done. by rewrite append_assoc, append_cons, append_empty_l.
Qed.

Lemma strtok_from_dash tok rest :
  tok ≠ "" →
  strtok_from ["-"%char] tok ("-" +:+ rest) = tok :: strtok_from ["-"%char] "" rest.
Proof.
  intros Hne. apply String.eqb_neq in Hne.
  rewrite append_cons, append_empty_l. cbn [strtok_from existsb].
  change (Ascii.eqb "-" "-") with true. cbn [orb]. by rewrite Hne.
Qed.

Lemma strtok_to_gtid_string s d n :
  strtok (to_gtid_string s d n) "-" = [ostream_put d; ostream_put s; ostream_put n].
Proof.
  unfold strtok, to_gtid_string. cbn [list_ascii_of_string].
  rewrite strtok_from_digits by apply ostream_put_digits.
  rewrite append_empty_l, strtok_from_dash by apply ostream_put_nonempty.
  rewrite strtok_from_digits by apply ostream_put_digits.
  rewrite append_empty_l, strtok_from_dash by apply ostream_put_nonempty.
  rewrite <- (append_empty_r (ostream_put n)) at 1.
  rewrite strtok_from_digits by apply ostream_put_digits.
  rewrite append_empty_l. cbn [strtok_from].
  pose proof (ostream_put_nonempty n) as Hn. apply String.eqb_neq in Hn.
  by rewrite Hn.
Qed.

Lemma mxb_assert_true debug : mxb_assert debug true = Done tt.
Proof. unfold mxb_assert. by rewrite andb_false_r. Qed.

Lemma mxb_assert_release cond : mxb_assert false cond = Done tt.
Proof. reflexivity. Qed.

Lemma gtid_list_loop_render debug (target : Gtid) (candidates : list Gtid) :
  gtid_list_loop debug (strtok (render target) "-") (map render candidates)
  = Done (existsb (fun c => (domain target =? domain c)
                            && (strtoull (ostream_put (sequence target))
                                <? strtoull (ostream_put (sequence c))))
                  candidates).
Proof.
  unfold render. rewrite strtok_to_gtid_string.
  induction candidates as [|c cs IH]; [reflexivity|].
  cbn [map gtid_list_loop existsb]. rewrite strtok_to_gtid_string.
  cbn [length Nat.eqb]. rewrite mxb_assert_true.
  cbn [vec_at nth_error mbind result_bind]. rewrite ostream_put_eqb.
  destruct (domain target =? domain c); cbn [andb orb]; [|exact IH].
  cbn [mbind result_bind vec_at nth_error].
  destruct (_ <? _); cbn [orb]; [reflexivity|exact IH].
Qed.

Lemma gtid_list_is_newer_render debug (target : Gtid) (candidates : list Gtid) :
  wf_gtid target → Forall wf_gtid candidates →
  gtid_list_is_newer debug (render target) (map render candidates)
  = Done (existsb (newer_than target) candidates).
Proof.
  intros (_ & _ & Ht) Hcs. unfold gtid_list_is_newer.
  rewrite gtid_list_loop_render. f_equal.
  induction Hcs as [|c cs (_ & _ & Hc) _ IH]; [reflexivity|].
  cbn [existsb]. rewrite IH. unfold newer_than.
  by rewrite !strtoull_ostream_put.
Qed.

(** C8.  For a well-formed target and well-formed candidates,
    [gtid_list_is_newer] returns, and it returns true exactly when some
    candidate has the target's domain and a strictly greater sequence
    number; candidates of other domains never make it true. *)
Theorem gtid_list_is_newer_iff debug (target : Gtid) (candidates : list Gtid) :
  wf_gtid target → Forall wf_gtid candidates →
  ∃ rval,
    gtid_list_is_newer debug (render target) (map render candidates) = Done rval
    ∧ (rval = true ↔
         ∃ c, In c candidates ∧ domain c = domain target
              ∧ sequence target < sequence c)
    ∧ ((∀ c, In c candidates → domain c ≠ domain target) → rval = false).
Proof.
  intros Ht Hcs. eexists. split; [by apply gtid_list_is_newer_render|]. split.
  - rewrite existsb_exists. split.
    + intros (c & Hin & Hc). exists c. unfold newer_than in Hc.
      apply andb_true_iff in Hc as [Hd Hs].
      apply N.eqb_eq in Hd. apply N.ltb_lt in Hs. done.
    + intros (c & Hin & Hd & Hs). exists c. split; [done|].
      unfold newer_than. apply andb_true_iff. split.
      * by apply N.eqb_eq.
      * by apply N.ltb_lt.
  - intros Hother. apply not_true_is_false. rewrite existsb_exists.
    intros (c & Hin & Hc). unfold newer_than in Hc.
    apply andb_true_iff in Hc as [Hd _]. apply N.eqb_eq in Hd.
    by apply (Hother c Hin).
Qed.

(** ** The commit coordinator *)

Section Properties.
Context `{Env : Environment}.

Lemma set_tables_same (s : Imp) : set_tables (m_tables s) s = s.
Proof. by destruct s. Qed.

Lemma commit_tables_open (l : list (N * option Table)) : ∀ rval,
  all_open l = true →
  commit_tables l rval = Done (rval && forallb slot_commits l, map commit_slot l).
Proof.
  induction l as [|[id slot] l IH]; intros rval Hopen.
  - cbn. by rewrite andb_true_r.
  - cbn [all_open forallb] in Hopen. apply andb_true_iff in Hopen as [Hslot Hrest].
    destruct slot as [t|]; [|done].
    cbn [commit_tables map forallb]. unfold slot_commits at 1, commit_slot at 1.
    cbn [fst snd fmap option_fmap option_map].
    destruct (table_commit t) as [committed t'] eqn:Ht. cbn [fst snd].
    rewrite IH by exact Hrest. cbn [mbind result_bind].
    by destruct committed, rval.
Qed.

Lemma commit_tables_null (l : list (N * option Table)) : ∀ rval,
  all_open l = false → commit_tables l rval = Crash.
Proof.
  induction l as [|[id slot] l IH]; intros rval Hopen; [done|].
  cbn [all_open forallb] in Hopen. destruct slot as [t|]; [|done].
  cbn [commit_tables]. destruct (table_commit t) as [committed t'].
  cbn [snd andb] in Hopen. by rewrite IH.
Qed.

Lemma commit_transactions_open (s : Imp) :
  all_open (m_tables s) = true →
  commit_transactions s
  = Done (if all_committed s then save_gtid_state (after_commits s)
          else (false, after_commits s)).
Proof.
  intros Hopen. unfold commit_transactions, all_committed, after_commits.
  destruct (executor_commit (m_executor s)) as [rval executor]. cbn [fst snd].
  rewrite commit_tables_open by done. cbn [mbind result_bind].
  by destruct (rval && _).
Qed.

Lemma commit_transactions_null (s : Imp) :
  all_open (m_tables s) = false → commit_transactions s = Crash.
Proof.
  intros Hopen. unfold commit_transactions.
  destruct (executor_commit (m_executor s)) as [rval executor].
  by rewrite commit_tables_null.
Qed.

Lemma commit_transactions_cases (s : Imp) rval s' :
  commit_transactions s = Done (rval, s') →
  all_open (m_tables s) = true
  ∧ (rval, s') = (if all_committed s then save_gtid_state (after_commits s)
                  else (false, after_commits s)).
Proof.
  intros H. destruct (all_open (m_tables s)) eqn:Hopen.
  - rewrite commit_transactions_open in H by done. split; [done|congruence].
  - by rewrite commit_transactions_null in H.
Qed.

Lemma statefile_not_tmp :
  (STATEFILE_DIR +:+ STATEFILE_NAME) +:+ STATEFILE_TMP_SUFFIX
  ≠ STATEFILE_DIR +:+ STATEFILE_NAME.
Proof. by vm_compute. Qed.

(** What [save_gtid_state] leaves behind. *)
Lemma save_gtid_state_frame (s : Imp) :
  let s' := (save_gtid_state s).2 in
  m_cnf s' = m_cnf s ∧ m_sql s' = m_sql s ∧ m_running s' = m_running s
  ∧ m_gtid s' = m_gtid s ∧ m_current_gtid s' = m_current_gtid s
  ∧ m_tables s' = m_tables s ∧ m_executor s' = m_executor s
  ∧ m_state s' = m_state s ∧ m_implicit_commit s' = m_implicit_commit s
  ∧ m_skip s' = m_skip s.
Proof.
  unfold save_gtid_state. cbv zeta.
  destruct (path_denied _ _); [done|]. by destruct (rename_fails _).
Qed.

Lemma save_gtid_state_writable (s : Imp) :
  writable (disk s) = true →
  (save_gtid_state s).1 = true
  ∧ checkpoint (save_gtid_state s).2
    = Some (m_current_gtid s +:+ endl).
Proof.
  unfold writable, save_gtid_state, checkpoint. cbv zeta. intros Hw.
  apply andb_true_iff in Hw as [Hd Hr]. apply negb_true_iff in Hd, Hr.
  rewrite Hd, Hr. cbn [fst snd disk set_disk files].
  split; [done|]. by rewrite lookup_insert_eq.
Qed.

Lemma save_gtid_state_failed (s : Imp) :
  (save_gtid_state s).1 = false →
  checkpoint (save_gtid_state s).2 = checkpoint s.
Proof.
  unfold save_gtid_state, checkpoint. cbv zeta.
  destruct (path_denied _ _); [done|].
  destruct (rename_fails _); [|done]. intros _.
  cbn [fst snd disk set_disk set_errno files].
  apply lookup_insert_ne, statefile_not_tmp.
Qed.

Lemma commit_transactions_frame (s : Imp) rval s' :
  commit_transactions s = Done (rval, s') →
  m_cnf s' = m_cnf s ∧ m_sql s' = m_sql s ∧ m_running s' = m_running s
  ∧ m_gtid s' = m_gtid s ∧ m_current_gtid s' = m_current_gtid s
  ∧ m_state s' = m_state s ∧ m_implicit_commit s' = m_implicit_commit s
  ∧ m_skip s' = m_skip s.
Proof.
  intros H. apply commit_transactions_cases in H as [_ H].
  destruct (all_committed s).
  - pose proof (save_gtid_state_frame (after_commits s)) as F.
    rewrite <- H in F. cbn [snd] in F.
    destruct F as (? & ? & ? & ? & ? & ? & ? & ? & ? & ?). done.
  - by injection H as -> ->.
Qed.

(** A commit that reports failure has left the checkpoint file alone. *)
Lemma commit_transactions_failed (s : Imp) s' :
  commit_transactions s = Done (false, s') → checkpoint s' = checkpoint s.
Proof.
  intros H. apply commit_transactions_cases in H as [_ H].
  destruct (all_committed s).
  - pose proof (save_gtid_state_failed (after_commits s)) as F.
    rewrite <- H in F. by apply F.
  - by injection H as ->.
Qed.

(** After a successful save the checkpoint file can be opened. *)
Lemma save_gtid_state_readable (s : Imp) :
  (save_gtid_state s).1 = true →
  path_denied (disk (save_gtid_state s).2) (STATEFILE_DIR +:+ STATEFILE_NAME) = false.
Proof.
  unfold save_gtid_state. cbv zeta.
  destruct (path_denied _ _); [done|]. destruct (rename_fails _); [done|].
  intros _. cbn [snd disk set_disk denied]. unfold path_denied. cbn [denied].
  induction (denied (disk s)) as [|p l IH]; [done|]. cbn [List.filter].
  destruct (String.eqb_spec p (STATEFILE_DIR +:+ STATEFILE_NAME)) as [->|Hne];
    cbn [negb]; [exact IH|].
  cbn [existsb]. rewrite IH, orb_false_r.
  apply String.eqb_neq. congruence.
Qed.

(** Under the registry invariant (every entry an open table),
    [commit_transactions] returns after asking the executor and then every
    table to commit, a failure among them notwithstanding; it goes on to
    [save_gtid_state] (which, the disk permitting, replaces the checkpoint
    by the current GTID) if the executor and all the tables committed, and
    otherwise reports failure and leaves the disk as it was. *)
Lemma commit_transactions_checkpoint (s : Imp) :
  all_open (m_tables s) = true →
  ∃ rval s',
    commit_transactions s = Done (rval, s')
    ∧ m_executor s' = (executor_commit (m_executor s)).2
    ∧ m_tables s' = map commit_slot (m_tables s)
    ∧ (all_committed s = true →
         (rval, s') = save_gtid_state (after_commits s)
         ∧ (writable (disk s) = true →
              rval = true
              ∧ checkpoint s' = Some (m_current_gtid s +:+ endl)))
    ∧ (all_committed s = false →
         rval = false ∧ s' = after_commits s ∧ disk s' = disk s).
Proof.
  intros Hopen. rewrite commit_transactions_open by done.
  destruct (all_committed s) eqn:Hall.
  - destruct (save_gtid_state (after_commits s)) as [rval s'] eqn:Hsave.
    exists rval, s'. pose proof (save_gtid_state_frame (after_commits s)) as F.
    rewrite Hsave in F. cbn [snd] in F.
    destruct F as (_ & _ & _ & _ & _ & Ht & He & _).
    split; [done|]. split; [done|]. split; [done|]. split; [|done].
    intros _. split; [done|]. intros Hw.
    pose proof (save_gtid_state_writable (after_commits s) Hw) as W.
    by rewrite Hsave in W.
  - exists false, (after_commits s). repeat split; done.
Qed.

(** ** The skip controller *)

Lemma should_process_skipping (s : Imp) ev wanted s1 :
  m_skip s ≠ NONE →
  should_process s ev = Done (wanted, s1) →
  wanted = false ∧ only_skip_and_running s s1.
Proof.
  intros Hskip. unfold should_process, only_skip_and_running.
  destruct (decide (m_skip s ≠ NONE)); [|done].
  destruct ev; try (destruct (_ || _); intros [= <- <-]; by destruct s).
  destruct (mxb_assert _ _); [|done]. cbn [mbind result_bind].
  destruct (String.eqb _ _); [intros [= <- <-]; by destruct s|].
  destruct (gtid_list_is_newer _ _ _) as [[]|]; [| |done];
    cbn [mbind result_bind]; intros [= <- <-]; by destruct s.
Qed.

Lemma should_process_not_gtid (s : Imp) ev :
  m_skip s ≠ NONE → is_gtid_event ev = false →
  should_process s ev
  = Done (false,
          if bool_decide (m_skip s = NEXT_STMT)
             || (bool_decide (m_skip s = NEXT_TRX) && is_xid_event ev)
          then set_skip NONE s else s).
Proof.
  intros Hskip Hev. unfold should_process.
  destruct (decide (m_skip s ≠ NONE)); [|done].
  destruct ev; try done; by destruct (_ || _).
Qed.

Lemma should_process_gtid_done (s : Imp) sid did seq flags (target : Gtid) :
  m_skip s = ALL → m_gtid s = render target →
  ∃ s1, should_process s (GTID_EVENT sid did seq flags) = Done (false, s1).
Proof.
  intros Hskip Htarget. unfold should_process.
  destruct (decide (m_skip s ≠ NONE)) as [_|Hn]; [|exfalso; apply Hn; by rewrite Hskip].
  rewrite Hskip, bool_decide_eq_true_2, mxb_assert_true by done.
  cbn [mbind result_bind]. destruct (String.eqb _ _); [by eexists|].
  rewrite Htarget.
  change [to_gtid_string sid did seq]
    with (map render [{| domain := did; server := sid; sequence := seq |}]).
  unfold gtid_list_is_newer. rewrite gtid_list_loop_render.
  cbn [mbind result_bind]. destruct (existsb _ _); by eexists.
Qed.

(** C3.  While [m_skip] is not [NONE], a fetched event is never let through:
    [should_process] answers false, so the loop body ends without calling
    [process_one_event], and the executor, the registry, the mode, the
    GTIDs and the disk are what they were (no enqueue, no commit, no
    checkpoint).  The body does return for every event other than a GTID
    event, and for a GTID event too when the skip state is [ALL] and the
    target is a rendered GTID. *)
Theorem skip_discards_events (s : Imp) ev :
  m_skip s ≠ NONE →
  (∀ wanted s1, should_process s ev = Done (wanted, s1) →
     wanted = false ∧ handle_event s ev = Done s1)
  ∧ (∀ s', handle_event s ev = Done s' →
       only_skip_and_running s s'
       ∧ m_executor s' = m_executor s ∧ m_tables s' = m_tables s
       ∧ m_state s' = m_state s ∧ m_implicit_commit s' = m_implicit_commit s
       ∧ m_gtid s' = m_gtid s ∧ m_current_gtid s' = m_current_gtid s
       ∧ disk s' = disk s)
  ∧ (is_gtid_event ev = false → ∃ s', handle_event s ev = Done s')
  ∧ (m_skip s = ALL → (∃ target, m_gtid s = render target) →
       ∃ s', handle_event s ev = Done s').
Proof.
  intros Hskip. split; [|split; [|split]].
  - intros wanted s1 H.
    destruct (should_process_skipping _ _ _ _ Hskip H) as [-> _].
    split; [done|]. unfold handle_event. by rewrite H.
  - intros s' H. unfold handle_event in H.
    destruct (should_process s ev) as [[wanted s1]|] eqn:Hsp; [|done].
    destruct (should_process_skipping _ _ _ _ Hskip Hsp) as [-> Hframe].
    cbn [mbind result_bind] in H. injection H as <-.
    split; [done|]. rewrite Hframe. done.
  - intros Hev. unfold handle_event.
    rewrite should_process_not_gtid by done. by eexists.
  - intros Hall [target Htarget]. unfold handle_event.
    destruct (is_gtid_event ev) eqn:Hev.
    + destruct ev; try done.
      destruct (should_process_gtid_done s server_id domain_id sequence_nr flags
                  target Hall Htarget) as [s1 ->].
      by eexists.
    + rewrite should_process_not_gtid by done. by eexists.
Qed.

(** The transitions, event kind by event kind.  In [ALL], a GTID event
    that renders to the target moves to [NEXT_STMT] when
    [IMPLICIT_COMMIT_FLAG] is set and to [NEXT_TRX] otherwise.  In
    [NEXT_STMT], an event that is not a GTID event resets the skip state to
    [NONE].  In [NEXT_TRX], an XID event resets it to [NONE], and any other
    event that is not a GTID event leaves it as it is. *)
Lemma skip_transitions (s : Imp) ev :
  (m_skip s = ALL →
     ∀ sid did seq flags,
       ev = GTID_EVENT sid did seq flags → to_gtid_string sid did seq = m_gtid s →
       should_process s ev
       = Done (false, set_skip (if has_flag flags IMPLICIT_COMMIT_FLAG
                                then NEXT_STMT else NEXT_TRX) s))
  ∧ (m_skip s = NEXT_STMT → is_gtid_event ev = false →
       should_process s ev = Done (false, set_skip NONE s))
  ∧ (m_skip s = NEXT_TRX → is_xid_event ev = true →
       should_process s ev = Done (false, set_skip NONE s))
  ∧ (m_skip s = NEXT_TRX → is_xid_event ev = false → is_gtid_event ev = false →
       should_process s ev = Done (false, s)).
Proof.
  split; [|split; [|split]].
  - intros Hskip sid did seq flags -> Heq. unfold should_process.
    destruct (decide (m_skip s ≠ NONE)) as [_|Hn]; [|exfalso; apply Hn; by rewrite Hskip].
    rewrite Hskip, bool_decide_eq_true_2, mxb_assert_true by done.
    cbn [mbind result_bind]. apply String.eqb_eq in Heq. by rewrite Heq.
  - intros Hskip Hev. rewrite should_process_not_gtid by congruence.
    by rewrite Hskip.
  - intros Hskip Hev. rewrite should_process_not_gtid.
    + by rewrite Hskip, Hev.
    + congruence.
    + by destruct ev.
  - intros Hskip Hxid Hev. rewrite should_process_not_gtid by congruence.
    by rewrite Hskip, Hxid.
Qed.

(** [NEXT_STMT] is entered by a GTID event only. *)
Lemma next_stmt_entered (s : Imp) ev wanted s' :
  should_process s ev = Done (wanted, s') →
  m_skip s' = NEXT_STMT → m_skip s = NEXT_STMT ∨ is_gtid_event ev = true.
Proof.
  intros H Hnext. destruct (is_gtid_event ev) eqn:Hev; [by right|left].
  destruct (decide (m_skip s = NONE)) as [Hnone|Hskip].
  - unfold should_process in H. destruct (decide (m_skip s ≠ NONE)); [done|].
    destruct (negb _); [destruct ev|]; injection H as _ <-; congruence.
  - rewrite should_process_not_gtid in H by done.
    destruct (_ || _); injection H as _ <-; [done|exact Hnext].
Qed.

(** C4.  [should_process] asserts that a GTID event meets the skip state
    [ALL] ([mxb_assert(m_skip == Skip::ALL)]).  On every state and event
    for which that assertion holds, in a debug and in a release build: in
    [ALL], a GTID event that renders to the target moves to [NEXT_STMT]
    when [IMPLICIT_COMMIT_FLAG] is set and to [NEXT_TRX] otherwise; in
    [NEXT_STMT], the next event resets the skip state to [NONE]; in
    [NEXT_TRX], an XID event resets it to [NONE] and every other event
    leaves it [NEXT_TRX]. *)
Theorem skip_state_machine (s : Imp) ev :
  (is_gtid_event ev = true → m_skip s = ALL) →
  (m_skip s = ALL →
     ∀ sid did seq flags,
       ev = GTID_EVENT sid did seq flags → to_gtid_string sid did seq = m_gtid s →
       should_process s ev
       = Done (false, set_skip (if has_flag flags IMPLICIT_COMMIT_FLAG
                                then NEXT_STMT else NEXT_TRX) s))
  ∧ (m_skip s = NEXT_STMT →
       should_process s ev = Done (false, set_skip NONE s))
  ∧ (m_skip s = NEXT_TRX → is_xid_event ev = true →
       should_process s ev = Done (false, set_skip NONE s))
  ∧ (m_skip s = NEXT_TRX → is_xid_event ev = false →
       should_process s ev = Done (false, s)).
Proof.
  intros Hassert.
  assert (Hother : m_skip s ≠ ALL → is_gtid_event ev = false).
  { intros Hne. destruct (is_gtid_event ev); [|done]. by destruct Hne; auto. }
  destruct (skip_transitions s ev) as (Hall & Hstmt & Hxid & Hkeep).
  split; [exact Hall|]. split; [|split].
  - intros Hskip. apply Hstmt; [done|]. apply Hother. by rewrite Hskip.
  - exact Hxid.
  - intros Hskip Hx. apply Hkeep; [done|done|]. apply Hother. by rewrite Hskip.
Qed.

(** ** The mode machine and the dispatcher *)

Lemma commit_transactions_downstream (s : Imp) rval s' :
  commit_transactions s = Done (rval, s') →
  m_executor s' = (executor_commit (m_executor s)).2
  ∧ m_tables s' = map commit_slot (m_tables s).
Proof.
  intros H. apply commit_transactions_cases in H as [_ H].
  destruct (all_committed s).
  - pose proof (save_gtid_state_frame (after_commits s)) as F.
    rewrite <- H in F. cbn [snd] in F.
    destruct F as (_ & _ & _ & _ & _ & Ht & He & _). done.
  - by injection H as -> ->.
Qed.

Lemma set_state_switch (state : State) (s : Imp) :
  m_state s ≠ state →
  set_state state s
  = '(committed, s1) ← commit_transactions s;
    if (committed : bool) then Done (true, set_mode state s1) else Done (false, s1).
Proof. intros H. unfold set_state. by destruct (decide (m_state s ≠ state)). Qed.

Lemma set_state_same (state : State) (s : Imp) :
  m_state s = state → set_state state s = Done (true, s).
Proof. intros H. unfold set_state. by destruct (decide (m_state s ≠ state)). Qed.

Lemma set_state_mode (state : State) (s : Imp) rval s' :
  set_state state s = Done (rval, s') →
  m_state s' ≠ m_state s → ∃ s1, commit_transactions s = Done (true, s1).
Proof.
  intros H Hmode. destruct (decide (m_state s = state)) as [Heq|Hne].
  - rewrite set_state_same in H by done. by injection H as _ <-.
  - rewrite set_state_switch in H by done.
    destruct (commit_transactions s) as [[[] s1]|] eqn:Hc; [by eexists| |done].
    cbn [mbind result_bind] in H. injection H as _ <-.
    apply commit_transactions_frame in Hc. by destruct Hc as (_&_&_&_&_&?&_).
Qed.

Lemma tables_find_app id (l l' : list (N * option Table)) :
  tables_find id (l ++ l')%list
  = match tables_find id l with Some slot => Some slot | None => tables_find id l' end.
Proof.
  induction l as [|[k slot] l IH]; [done|]. cbn [app tables_find].
  by destruct (k =? id).
Qed.

Lemma tables_index_known id (l : list (N * option Table)) t :
  tables_find id (tables_index id l) = Some (Some t) →
  tables_index id l = l ∧ tables_find id l = Some (Some t).
Proof.
  unfold tables_index. destruct (tables_find id l) as [slot|] eqn:Hf.
  - rewrite Hf. by intros ->.
  - rewrite tables_find_app, Hf. cbn [tables_find]. rewrite N.eqb_refl. done.
Qed.

Lemma tables_index_unknown id (l : list (N * option Table)) :
  tables_find id l = None →
  tables_index id l = (l ++ [(id, None)])%list
  ∧ tables_find id (tables_index id l) = Some None.
Proof.
  intros Hf. unfold tables_index. rewrite Hf. split; [done|].
  rewrite tables_find_app, Hf. cbn [tables_find]. by rewrite N.eqb_refl.
Qed.

Lemma rows_event_known (s : Imp) kind id t :
  tables_find id (m_tables s) = Some (Some t) →
  process_one_event s (ROWS_EVENT kind id)
  = '(rval, s2) ← set_state BULK s;
    if (rval : bool) then
      Done (true, set_tables (tables_call id (table_enqueue (ROWS_EVENT kind id))
                                (m_tables s2)) s2)
    else Done (false, s2).
Proof.
  intros Hf. unfold process_one_event. cbn [m_tables set_tables].
  unfold tables_index. rewrite !Hf. by rewrite set_tables_same.
Qed.

Lemma process_one_event_mode (s : Imp) ev rval s' :
  process_one_event s ev = Done (rval, s') →
  m_state s' ≠ m_state s → ∃ s1, commit_transactions s = Done (true, s1).
Proof.
  destruct ev as [sid did seq flags|n|id db tbl|db stmt|kind id|n];
    cbn [process_one_event].
  - destruct (has_flag _ _); by intros [= _ <-].
  - destruct (commit_transactions s) as [[[] s1]|] eqn:Hc; [| |done];
      cbn [mbind result_bind]; intros [= _ <-];
      apply commit_transactions_frame in Hc;
      by destruct Hc as (_&_&_&_&_&?&_).
  - destruct (Table_open _ _); by intros [= _ <-].
  - destruct (set_state STMT s) as [[[] s1]|] eqn:Hs; [| |done];
      cbn [mbind result_bind].
    + intros H Hmode. apply (set_state_mode STMT s true s1 Hs).
      destruct (m_implicit_commit _); [|by injection H as _ <-].
      apply commit_transactions_frame in H.
      destruct H as (_&_&_&_&_&Hm&_).
      cbn [m_state set_gtid set_implicit_commit set_executor] in Hm.
      by rewrite <- Hm.
    + intros [= _ <-]. by apply (set_state_mode STMT s false s1).
  - destruct (tables_find id (m_tables (set_tables _ s))) as [[t|]|] eqn:Hf;
      [|by intros [= _ <-]..].
    cbn [m_tables set_tables] in Hf.
    apply tables_index_known in Hf as [Hidx Hf]. rewrite Hidx, set_tables_same.
    destruct (set_state BULK s) as [[[] s1]|] eqn:Hs; [| |done];
      cbn [mbind result_bind]; intros [= _ <-] Hm;
      exact (set_state_mode _ _ _ _ Hs Hm).
  - by intros [= _ <-].
Qed.

(** C5.  The mode is one of [STMT] and [BULK].  Whenever
    [process_one_event] leaves the mode changed, [commit_transactions] had
    run on the incoming state and reported success.  A query event in
    [BULK] mode, and a rows event for an open table in [STMT] mode, first
    run [commit_transactions]; when that fails the event is refused in the
    state the failed commit left (mode unchanged, nothing enqueued), and
    when it succeeds the mode is switched and the event is enqueued. *)
Theorem mode_switch_needs_commit (s : Imp) ev :
  (m_state s = STMT ∨ m_state s = BULK)
  ∧ (∀ rval s', process_one_event s ev = Done (rval, s') →
       m_state s' ≠ m_state s → ∃ s1, commit_transactions s = Done (true, s1))
  ∧ (∀ db stmt s1, ev = QUERY_EVENT db stmt → m_state s = BULK →
       commit_transactions s = Done (false, s1) →
       process_one_event s ev = Done (false, s1)
       ∧ m_state s1 = BULK
       ∧ m_executor s1 = (executor_commit (m_executor s)).2
       ∧ m_tables s1 = map commit_slot (m_tables s))
  ∧ (∀ kind id t s1, ev = ROWS_EVENT kind id →
       tables_find id (m_tables s) = Some (Some t) → m_state s = STMT →
       commit_transactions s = Done (false, s1) →
       process_one_event s ev = Done (false, s1)
       ∧ m_state s1 = STMT
       ∧ m_executor s1 = (executor_commit (m_executor s)).2
       ∧ m_tables s1 = map commit_slot (m_tables s))
  ∧ (∀ db stmt s1, ev = QUERY_EVENT db stmt → m_state s = BULK →
       m_implicit_commit s = false →
       commit_transactions s = Done (true, s1) →
       process_one_event s ev
       = Done (true, set_executor (executor_enqueue ev (m_executor s1))
                       (set_mode STMT s1)))
  ∧ (∀ kind id t s1, ev = ROWS_EVENT kind id →
       tables_find id (m_tables s) = Some (Some t) → m_state s = STMT →
       commit_transactions s = Done (true, s1) →
       process_one_event s ev
       = Done (true, set_tables (tables_call id (table_enqueue ev) (m_tables s1))
                       (set_mode BULK s1))).
Proof.
  split; [by destruct (m_state s); auto|].
  split; [by apply process_one_event_mode|].
  split; [|split; [|split]].
  - intros db stmt s1 -> Hmode Hc. cbn [process_one_event].
    rewrite set_state_switch, Hc by by rewrite Hmode.
    cbn [mbind result_bind]. split; [done|].
    pose proof (commit_transactions_frame _ _ _ Hc) as (_&_&_&_&_&Hm&_).
    pose proof (commit_transactions_downstream _ _ _ Hc) as [He Ht].
    by rewrite Hm.
  - intros kind id t s1 -> Hf Hmode Hc. rewrite (rows_event_known _ _ _ _ Hf).
    rewrite set_state_switch, Hc by by rewrite Hmode.
    cbn [mbind result_bind]. split; [done|].
    pose proof (commit_transactions_frame _ _ _ Hc) as (_&_&_&_&_&Hm&_).
    pose proof (commit_transactions_downstream _ _ _ Hc) as [He Ht].
    by rewrite Hm.
  - intros db stmt s1 -> Hmode Himp Hc. cbn [process_one_event].
    rewrite set_state_switch, Hc by by rewrite Hmode.
    cbn [mbind result_bind].
    pose proof (commit_transactions_frame _ _ _ Hc) as (_&_&_&_&_&_&Hi&_).
    cbn [m_implicit_commit set_executor set_mode]. by rewrite Hi, Himp.
  - intros kind id t s1 -> Hf Hmode Hc. rewrite (rows_event_known _ _ _ _ Hf).
    rewrite set_state_switch, Hc by by rewrite Hmode.
    done.
Qed.

Lemma set_state_frame (state : State) (s : Imp) rval s' :
  set_state state s = Done (rval, s') →
  m_gtid s' = m_gtid s ∧ m_current_gtid s' = m_current_gtid s
  ∧ m_implicit_commit s' = m_implicit_commit s ∧ m_running s' = m_running s.
Proof.
  intros H. destruct (decide (m_state s = state)) as [Heq|Hne].
  - rewrite set_state_same in H by done. by injection H as _ <-.
  - rewrite set_state_switch in H by done.
    destruct (commit_transactions s) as [[[] s1]|] eqn:Hc; [| |done];
      cbn [mbind result_bind] in H; injection H as _ <-;
      apply commit_transactions_frame in Hc;
      by destruct Hc as (_&_&?&?&?&_&?&_).
Qed.

Lemma save_gtid_state_succeeded (s : Imp) :
  (save_gtid_state s).1 = true →
  checkpoint (save_gtid_state s).2 = Some (m_current_gtid s +:+ endl).
Proof.
  intros H. apply save_gtid_state_writable. unfold writable.
  unfold save_gtid_state in H. cbv zeta in H.
  destruct (path_denied _ _); [done|]. by destruct (rename_fails _).
Qed.

Lemma commit_transactions_succeeded (s : Imp) s' :
  commit_transactions s = Done (true, s') →
  checkpoint s' = Some (m_current_gtid s +:+ endl).
Proof.
  intros H. apply commit_transactions_cases in H as [_ H].
  destruct (all_committed s); [|done].
  pose proof (save_gtid_state_succeeded (after_commits s)) as Hs.
  rewrite <- H in Hs. by apply Hs.
Qed.

(** C10, as the code has it.  When a query event is processed with the
    implicit-commit flag set, [m_gtid] receives the current GTID before
    [commit_transactions] is called: if that commit fails, the event is
    refused with [m_gtid] already equal to the current GTID, and the failed
    commit has left the checkpoint file as it found it.  In [STMT] mode
    that is the file as it was before the event; in [BULK] mode the commit
    of the mode switch has already put the current GTID in the file.  For
    an XID event [m_gtid] becomes the current GTID only when the commit
    succeeded and is otherwise unchanged. *)
Theorem implicit_commit_advances_first (s : Imp) ev :
  (∀ db stmt s1 s',
     ev = QUERY_EVENT db stmt → m_implicit_commit s = true →
     set_state STMT s = Done (true, s1) →
     commit_transactions
       (set_gtid (m_current_gtid s)
          (set_implicit_commit false
             (set_executor (executor_enqueue ev (m_executor s1)) s1)))
     = Done (false, s') →
     process_one_event s ev = Done (false, s')
     ∧ m_gtid s' = m_current_gtid s
     ∧ checkpoint s' = checkpoint s1
     ∧ (m_state s = STMT → checkpoint s' = checkpoint s)
     ∧ (m_state s = BULK → checkpoint s' = Some (m_current_gtid s +:+ endl)))
  ∧ (∀ n rval s1,
       ev = XID_EVENT n → commit_transactions s = Done (rval, s1) →
       ∃ s', process_one_event s ev = Done (rval, s')
             ∧ m_gtid s' = (if rval then m_current_gtid s else m_gtid s)
             ∧ checkpoint s' = checkpoint s1).
Proof.
  split.
  - intros db stmt s1 s' -> Himp Hs Hc.
    pose proof (set_state_frame _ _ _ _ Hs) as (_ & Hcur & Hi & _).
    assert (Hproc : process_one_event s (QUERY_EVENT db stmt) = Done (false, s')).
    { cbn [process_one_event]. rewrite Hs. cbn [mbind result_bind].
      cbn [m_implicit_commit set_executor m_current_gtid]. rewrite Hi, Himp, Hcur.
      exact Hc. }
    split; [done|].
    pose proof (commit_transactions_frame _ _ _ Hc) as (_&_&_&Hg&_).
    pose proof (commit_transactions_failed _ _ Hc) as Hck.
    split; [by rewrite Hg|]. split; [done|]. split.
    + intros Hmode. rewrite set_state_same in Hs by done. by injection Hs as <-.
    + intros Hmode. rewrite set_state_switch in Hs by by rewrite Hmode.
      destruct (commit_transactions s) as [[[] s2]|] eqn:Hsw; [| |done];
        cbn [mbind result_bind] in Hs; [|done]. injection Hs as <-.
      rewrite Hck. by apply (commit_transactions_succeeded s s2).
  - intros n rval s1 -> Hc. cbn [process_one_event]. rewrite Hc.
    cbn [mbind result_bind].
    pose proof (commit_transactions_frame _ _ _ Hc) as (_&_&_&Hg&Hcur&_).
    destruct rval; eexists; (split; [done|]); cbn [m_gtid set_gtid]; by split.
Qed.

(** ** Where the worker stops *)

Lemma connect_running (s : Imp) r connected s1 :
  connect s r = Done (connected, s1) → m_running s1 = m_running s.
Proof.
  unfold connect. destruct (m_sql s); [by intros [= _ <-]|].
  destruct (negb _).
  - destruct (find_binlog_start_gtid s r "") as [[[] start]|];
      cbn [mbind result_bind]; [| |done].
    + destruct (_ && _); by intros [= _ <-].
    + by intros [= _ <-].
  - cbn [mbind result_bind]. destruct (_ && _); by intros [= _ <-].
Qed.

Lemma event_loop_stopped (s : Imp) rounds :
  m_running s = false → event_loop s rounds = Done (Exited s).
Proof. intros H. destruct rounds; cbn [event_loop]; by rewrite H. Qed.

(** A failed [process_one_event] clears [m_running]; the loop then ends. *)
Lemma handle_event_fatal (s : Imp) ev s1 s2 :
  should_process s ev = Done (true, s1) →
  process_one_event s1 ev = Done (false, s2) →
  handle_event s ev = Done (set_running false s2)
  ∧ ∀ rounds, event_loop (set_running false s2) rounds
              = Done (Exited (set_running false s2)).
Proof.
  intros Hs Hp. unfold handle_event. rewrite Hs. cbn [mbind result_bind].
  rewrite Hp. split; [done|]. intros rounds. by apply event_loop_stopped.
Qed.

Lemma table_open_refused (s : Imp) id db tbl :
  Table_open (m_cnf s) (TABLE_MAP_EVENT id db tbl) = None →
  process_one_event s (TABLE_MAP_EVENT id db tbl) = Done (false, s).
Proof. intros H. cbn [process_one_event]. by rewrite H. Qed.

Lemma xid_commit_failed (s : Imp) n s1 :
  commit_transactions s = Done (false, s1) →
  process_one_event s (XID_EVENT n) = Done (false, s1).
Proof. intros H. cbn [process_one_event]. by rewrite H. Qed.

(** A GTID past the target met while skipping clears [m_running]. *)
Lemma newer_gtid_stops (s : Imp) (target c : Gtid) flags :
  m_skip s = ALL → m_gtid s = render target →
  wf_gtid target → wf_gtid c → newer_than target c = true →
  ∃ s1, should_process s (GTID_EVENT (server c) (domain c) (sequence c) flags)
        = Done (false, s1)
        ∧ ok s1 = false.
Proof.
  intros Hskip Htarget Hwt Hwc Hnew. unfold should_process.
  destruct (decide (m_skip s ≠ NONE)) as [_|Hn]; [|exfalso; apply Hn; by rewrite Hskip].
  rewrite Hskip, bool_decide_eq_true_2, mxb_assert_true by done.
  cbn [mbind result_bind]. rewrite Htarget.
  change (to_gtid_string (server c) (domain c) (sequence c)) with (render c).
  assert (Hne : String.eqb (render c) (render target) = false).
  { apply String.eqb_neq. intros Heq. unfold newer_than in Hnew.
    apply andb_true_iff in Hnew as [_ Hlt]. apply N.ltb_lt in Hlt.
    assert (Hparts : strtok (render c) "-" = strtok (render target) "-")
      by by rewrite Heq.
    unfold render in Hparts. rewrite !strtok_to_gtid_string in Hparts.
    injection Hparts as _ _ Hseq. apply ostream_put_inj in Hseq. lia. }
  rewrite Hne. change [render c] with (map render [c]).
  rewrite gtid_list_is_newer_render by (done || by apply Forall_cons).
  cbn [existsb]. rewrite Hnew. cbn [orb mbind result_bind]. by eexists.
Qed.

(** A fetch error other than [CR_SERVER_LOST] leaves the loop through
    [break], with [m_running] as it was. *)
Lemma terminal_fetch_error (s : Imp) r rest errnum s1 :
  m_running s = true →
  connect s (on_connect r) = Done (true, s1) →
  on_fetch r = FetchFailed errnum → errnum ≠ CR_SERVER_LOST →
  event_loop s (r :: rest) = Done (Exited s1) ∧ ok s1 = true.
Proof.
  intros Hrun Hconn Hfetch Herr. cbn [event_loop].
  rewrite Hrun, Hconn. cbn [mbind result_bind]. rewrite Hfetch.
  apply N.eqb_neq in Herr. rewrite Herr. split; [done|].
  unfold ok. by rewrite (connect_running _ _ _ _ Hconn).
Qed.

(** ** The checkpoint file at start-up *)

Lemma set_errno_same (s : Imp) : set_errno (errno s) s = s.
Proof. by destruct s. Qed.

Lemma load_gtid_state_absent (s : Imp) :
  path_denied (disk s) (STATEFILE_DIR +:+ STATEFILE_NAME) = false →
  checkpoint s = None →
  load_gtid_state s = (true, set_errno ENOENT s).
Proof.
  unfold checkpoint, load_gtid_state, ifstream_open. cbv zeta.
  by intros -> ->.
Qed.

(** A file without a word in it makes the extraction fail; [errno] then
    decides, and no call has set it. *)
Lemma load_gtid_state_blank (s : Imp) content :
  path_denied (disk s) (STATEFILE_DIR +:+ STATEFILE_NAME) = false →
  checkpoint s = Some content → skip_space content = "" →
  load_gtid_state s = ((errno s =? ENOENT)%Z, s).
Proof.
  unfold checkpoint, load_gtid_state, ifstream_open. cbv zeta.
  intros -> -> Hblank. cbn [mbind option_bind]. unfold extract_word.
  rewrite Hblank, set_errno_same. by destruct (_ =? _)%Z.
Qed.

(** ** The implicit-commit flag and the registry *)

(** A GTID event without the flag leaves [m_implicit_commit] as it was. *)
Lemma gtid_event_keeps_flag (s : Imp) sid did seq flags :
  has_flag flags IMPLICIT_COMMIT_FLAG = false →
  process_one_event s (GTID_EVENT sid did seq flags)
  = Done (true, set_current_gtid (to_gtid_string sid did seq) s).
Proof. intros H. cbn [process_one_event]. by rewrite H. Qed.

(** A rows event for an identifier that is not in the registry is accepted,
    enqueues nothing and leaves the mode, and adds a null entry. *)
Lemma rows_event_unknown (s : Imp) kind id :
  tables_find id (m_tables s) = None →
  process_one_event s (ROWS_EVENT kind id)
  = Done (true, set_tables (m_tables s ++ [(id, None)])%list s).
Proof.
  intros Hf. cbn [process_one_event]. cbn [m_tables set_tables].
  destruct (tables_index_unknown _ _ Hf) as [Hidx Hfind].
  by rewrite Hfind, Hidx.
Qed.

Lemma all_open_null id (l : list (N * option Table)) :
  all_open (l ++ [(id, None)])%list = false.
Proof.
  unfold all_open. rewrite forallb_app. cbn. by rewrite andb_false_r.
Qed.

(** The next commit then calls through that null entry. *)
Lemma rows_event_unknown_then_commit (s : Imp) kind id s1 :
  tables_find id (m_tables s) = None →
  process_one_event s (ROWS_EVENT kind id) = Done (true, s1) →
  commit_transactions s1 = Crash.
Proof.
  intros Hf. rewrite rows_event_unknown by done. intros [= <-].
  apply commit_transactions_null. cbn [m_tables set_tables]. apply all_open_null.
Qed.

(** ** The registry invariant

    Every entry of the registry stays an open table under every event,
    except a rows event whose identifier is not in the registry; under the
    invariant [process_one_event] returns. *)

Lemma all_open_commit (l : list (N * option Table)) :
  all_open (map commit_slot l) = all_open l.
Proof.
  induction l as [|[id [t|]] l IH]; [done| |done].
  change (all_open (map commit_slot ((id, Some t) :: l)))
    with (all_open (map commit_slot l)).
  exact IH.
Qed.

Lemma all_open_replace id t (l : list (N * option Table)) :
  all_open l = true → all_open (tables_replace id (Some t) l) = true.
Proof.
  induction l as [|[k slot] l IH]; [done|]. cbn [all_open forallb tables_replace].
  intros H. apply andb_true_iff in H as [Hs Hl].
  destruct (k =? id); cbn [all_open forallb]; apply andb_true_iff; split;
    try done. by apply IH.
Qed.

Lemma tables_replace_app id v (l l' : list (N * option Table)) :
  tables_find id l = None →
  tables_replace id v (l ++ l')%list = (l ++ tables_replace id v l')%list.
Proof.
  induction l as [|[k slot] l IH]; [done|]. cbn [tables_find app tables_replace].
  destruct (k =? id); [done|]. intros H. by rewrite IH.
Qed.

Lemma all_open_assign id t (l : list (N * option Table)) :
  all_open l = true → all_open (tables_assign id (Some t) l) = true.
Proof.
  intros H. unfold tables_assign, tables_index.
  destruct (tables_find id l) eqn:Hf; [by apply all_open_replace|].
  rewrite tables_replace_app by done. cbn [tables_replace]. rewrite N.eqb_refl.
  unfold all_open. rewrite forallb_app. apply andb_true_iff. by split.
Qed.

Lemma all_open_call id f (l : list (N * option Table)) :
  all_open (tables_call id f l) = all_open l.
Proof.
  induction l as [|[k slot] l IH]; [done|]. cbn [tables_call].
  destruct (k =? id).
  - cbn [all_open forallb]. by destruct slot.
  - change (all_open ((k, slot) :: tables_call id f l))
      with (match slot with Some _ => true | None => false end
            && all_open (tables_call id f l)).
    by rewrite IH.
Qed.

Lemma commit_transactions_keeps_open (s : Imp) rval s' :
  commit_transactions s = Done (rval, s') → all_open (m_tables s') = true.
Proof.
  intros H. pose proof (commit_transactions_downstream _ _ _ H) as [_ Ht].
  apply commit_transactions_cases in H as [Hopen _].
  by rewrite Ht, all_open_commit.
Qed.

Lemma commit_transactions_returns (s : Imp) :
  all_open (m_tables s) = true → ∃ rval s', commit_transactions s = Done (rval, s').
Proof.
  intros H. rewrite commit_transactions_open by done.
  destruct (if all_committed s then _ else _) as [rval s']. by exists rval, s'.
Qed.

Lemma set_state_returns (state : State) (s : Imp) :
  all_open (m_tables s) = true →
  ∃ rval s', set_state state s = Done (rval, s') ∧ all_open (m_tables s') = true.
Proof.
  intros H. destruct (decide (m_state s = state)) as [Heq|Hne].
  - rewrite set_state_same by done. by exists true, s.
  - rewrite set_state_switch by done.
    destruct (commit_transactions_returns s H) as (rval & s1 & Hc). rewrite Hc.
    pose proof (commit_transactions_keeps_open _ _ _ Hc) as Hopen.
    cbn [mbind result_bind]. destruct rval; eexists _, _; by split.
Qed.

Lemma process_one_event_returns (s : Imp) ev :
  all_open (m_tables s) = true →
  ∃ rval s', process_one_event s ev = Done (rval, s').
Proof.
  intros H. destruct ev as [sid did seq flags|n|id db tbl|db stmt|kind id|n];
    cbn [process_one_event]; try by eexists _, _.
  - destruct (commit_transactions_returns s H) as (rval & s1 & ->).
    cbn [mbind result_bind]. destruct rval; by eexists _, _.
  - destruct (Table_open _ _); by eexists _, _.
  - destruct (set_state_returns STMT s H) as (rval & s1 & -> & Hopen).
    cbn [mbind result_bind]. destruct rval; [|by eexists _, _].
    destruct (m_implicit_commit _); [|by eexists _, _].
    by apply commit_transactions_returns.
  - destruct (tables_find id (m_tables (set_tables _ s))) as [[t|]|] eqn:Hf;
      [|by eexists _, _..].
    cbn [m_tables set_tables] in Hf.
    apply tables_index_known in Hf as [Hidx Hf]. rewrite Hidx, set_tables_same.
    destruct (set_state_returns BULK s H) as (rval & s1 & -> & Hopen).
    cbn [mbind result_bind]. destruct rval; by eexists _, _.
Qed.

Lemma process_one_event_keeps_open (s : Imp) ev rval s' :
  all_open (m_tables s) = true →
  (∀ kind id, ev = ROWS_EVENT kind id → tables_find id (m_tables s) ≠ None) →
  process_one_event s ev = Done (rval, s') →
  all_open (m_tables s') = true.
Proof.
  intros H Hknown.
  destruct ev as [sid did seq flags|n|id db tbl|db stmt|kind id|n];
    cbn [process_one_event].
  - destruct (has_flag _ _); by intros [= _ <-].
  - destruct (commit_transactions s) as [[[] s1]|] eqn:Hc; [| |done];
      cbn [mbind result_bind]; intros [= _ <-];
      by apply (commit_transactions_keeps_open _ _ _ Hc).
  - destruct (Table_open _ _); intros [= _ <-]; [|done].
    by apply all_open_assign.
  - destruct (set_state_returns STMT s H) as (r & s1 & -> & Hopen).
    cbn [mbind result_bind]. destruct r; [|by intros [= _ <-]].
    destruct (m_implicit_commit _); [|by intros [= _ <-]].
    apply commit_transactions_keeps_open.
  - destruct (tables_find id (m_tables s)) as [slot|] eqn:Hf;
      [|by destruct (Hknown kind id eq_refl)].
    cbn [m_tables set_tables]. unfold tables_index. rewrite !Hf, set_tables_same.
    destruct slot as [t|]; [|by intros [= _ <-]].
    destruct (set_state_returns BULK s H) as (r & s1 & -> & Hopen).
    cbn [mbind result_bind]. destruct r; intros [= _ <-]; [|done].
    cbn [m_tables set_tables]. by rewrite all_open_call.
  - by intros [= _ <-].
Qed.

End Properties.

(** ** The statements on concrete input *)

Lemma gtid_list_is_newer_iff_witness :
  wf_gtid {| domain := 0; server := 1; sequence := 100 |}
  ∧ Forall wf_gtid [{| domain := 1; server := 1; sequence := 500 |};
                    {| domain := 0; server := 1; sequence := 150 |}]
  ∧ gtid_list_is_newer true "0-1-100" ["1-1-500"; "0-1-150"] = Done true.
Proof.
  assert (Ht : wf_gtid {| domain := 0; server := 1; sequence := 100 |})
    by (repeat split; reflexivity).
  assert (Hcs : Forall wf_gtid [{| domain := 1; server := 1; sequence := 500 |};
                                {| domain := 0; server := 1; sequence := 150 |}])
    by (repeat constructor; reflexivity).
  split; [exact Ht|]. split; [exact Hcs|].
  destruct (gtid_list_is_newer_iff true _ _ Ht Hcs) as (rval & Heq & Hiff & _).
  assert (Hr : rval = true).
  { apply Hiff. exists {| domain := 0; server := 1; sequence := 150 |}.
    split; [right; left; reflexivity|]. split; reflexivity. }
  rewrite Hr in Heq. exact Heq.
Defined.

Lemma commit_transactions_checkpoint_witness :
  all_open (m_tables two_tables) = true
  ∧ ∃ s', commit_transactions two_tables = Done (false, s')
          ∧ m_tables s' = map commit_slot (m_tables two_tables)
          ∧ disk s' = disk two_tables.
Proof.
  split; [reflexivity|].
  destruct (commit_transactions_checkpoint two_tables eq_refl)
    as (rval & s' & Hc & _ & Ht & _ & Hfail).
  destruct (Hfail eq_refl) as (Hr & _ & Hd).
  exists s'. rewrite Hr in Hc. split; [exact Hc|]. split; [exact Ht|exact Hd].
Defined.

(** The second table has committed its batch although the first one failed. *)
Example two_tables_all_asked :
  ∃ s', commit_transactions two_tables = Done (false, s')
        ∧ tables_find 8 (m_tables s')
          = Some (Some {| label := "db.u"; pending := [];
                          applied := [write_rows 8]; healthy := true |})
        ∧ checkpoint s' = Some ("0-1-10" +:+ endl).
Proof. eexists. split; [vm_compute; reflexivity|]. split; reflexivity. Qed.

Lemma skip_discards_events_witness :
  m_skip (skipping false NEXT_TRX) ≠ NONE
  ∧ ∃ s', handle_event (skipping false NEXT_TRX) insert_a = Done s'
          ∧ m_executor s' = m_executor (skipping false NEXT_TRX)
          ∧ disk s' = disk (skipping false NEXT_TRX).
Proof.
  assert (Hskip : m_skip (skipping false NEXT_TRX) ≠ NONE) by discriminate.
  split; [exact Hskip|].
  destruct (skip_discards_events (skipping false NEXT_TRX) insert_a Hskip)
    as (_ & Hframe & Hret & _).
  destruct (Hret eq_refl) as [s' Hs']. exists s'. split; [exact Hs'|].
  destruct (Hframe s' Hs') as (_ & He & _ & _ & _ & _ & _ & Hd).
  split; [exact He|exact Hd].
Defined.

Lemma skip_state_machine_witness :
  (is_gtid_event create_b = true → m_skip (skipping true NEXT_STMT) = ALL)
  ∧ m_skip (skipping true NEXT_STMT) = NEXT_STMT
  ∧ should_process (skipping true NEXT_STMT) create_b
    = Done (false, set_skip NONE (skipping true NEXT_STMT))
  ∧ should_process (skipping true ALL) (GTID_EVENT 1 0 10 1)
    = Done (false, set_skip NEXT_STMT (skipping true ALL))
  ∧ should_process (skipping true NEXT_TRX) (XID_EVENT 77)
    = Done (false, set_skip NONE (skipping true NEXT_TRX)).
Proof.
  split; [discriminate|]. split; [reflexivity|]. split; [|split].
  - exact (proj1 (proj2 (skip_state_machine (skipping true NEXT_STMT) create_b
                           ltac:(discriminate))) eq_refl).
  - exact (proj1 (skip_state_machine (skipping true ALL) (GTID_EVENT 1 0 10 1)
                    ltac:(reflexivity))
             eq_refl 1 0 10 1 eq_refl eq_refl).
  - exact (proj1 (proj2 (proj2 (skip_state_machine (skipping true NEXT_TRX)
                                  (XID_EVENT 77) ltac:(discriminate))))
             eq_refl eq_refl).
Defined.

Lemma mode_switch_needs_commit_witness :
  m_state two_tables = BULK
  ∧ ∃ s1, commit_transactions two_tables = Done (false, s1)
          ∧ process_one_event two_tables insert_a = Done (false, s1)
          ∧ m_state s1 = BULK
          ∧ pending (m_executor s1) = [].
Proof.
  split; [reflexivity|].
  assert (Hc : ∃ s1, commit_transactions two_tables = Done (false, s1))
    by (eexists; vm_compute; reflexivity).
  destruct Hc as [s1 Hc].
  destruct (mode_switch_needs_commit two_tables insert_a)
    as (_ & _ & Hquery & _).
  destruct (Hquery "db" "INSERT INTO db.a VALUES (1)" s1 eq_refl eq_refl Hc)
    as (Hp & Hm & He' & _).
  exists s1. split; [exact Hc|]. split; [exact Hp|]. split; [exact Hm|].
  rewrite He'. reflexivity.
Defined.

Lemma implicit_commit_advances_first_witness :
  m_implicit_commit implicit_flaky = true
  ∧ m_gtid implicit_flaky = "0-1-10"
  ∧ ∃ s', process_one_event implicit_flaky create_b = Done (false, s')
          ∧ m_gtid s' = "0-1-11"
          ∧ checkpoint s' = Some ("0-1-10" +:+ endl).
Proof.
  split; [reflexivity|]. split; [reflexivity|].
  destruct (implicit_commit_advances_first implicit_flaky create_b) as [Hq _].
  assert (Hc : ∃ s',
    commit_transactions
      (set_gtid (m_current_gtid implicit_flaky)
         (set_implicit_commit false
            (set_executor (executor_enqueue create_b (m_executor implicit_flaky))
               implicit_flaky)))
    = Done (false, s')) by (eexists; vm_compute; reflexivity).
  destruct Hc as [s' Hc]. exists s'.
  destruct (Hq "db" "CREATE TABLE db.b (x INT)" implicit_flaky s'
              eq_refl eq_refl eq_refl Hc) as (Hp & Hg & _ & Hck & _).
  split; [exact Hp|]. split; [exact Hg|]. exact (Hck eq_refl).
Defined.

(** C10 as it stands fails in [BULK] mode: the commit of the mode switch
    succeeds and writes the current GTID [0-1-11], then the executor
    refuses the statement and the implicit commit fails; [m_gtid] and the
    checkpoint file have both moved from [0-1-10] to [0-1-11]. *)
Lemma failed_implicit_commit_after_mode_switch :
  m_state bulk_implicit = BULK
  ∧ m_implicit_commit bulk_implicit = true
  ∧ m_gtid bulk_implicit = "0-1-10"
  ∧ checkpoint bulk_implicit = Some ("0-1-10" +:+ endl)
  ∧ ∃ s', process_one_event bulk_implicit create_rejected = Done (false, s')
          ∧ m_gtid s' = "0-1-11"
          ∧ checkpoint s' = Some ("0-1-11" +:+ endl)
          ∧ checkpoint s' ≠ checkpoint bulk_implicit.
Proof.
  split; [reflexivity|]. split; [reflexivity|]. split; [reflexivity|].
  split; [reflexivity|].
  eexists. split; [vm_compute; reflexivity|]. split; [reflexivity|].
  split; [reflexivity|]. by vm_compute.
Qed.

(** C1.  With only [db.a] accepted: the table-map event of table 1 is
    processed, that of table 2 is filtered out, and the rows event for
    table 2 leaves a null entry in the registry.  When the commit
    coordinator runs next it calls through that entry: it neither finishes
    asking the tables nor decides about the checkpoint. *)
Theorem commit_with_null_entry_crashes :
  (∃ s, process_events only_a_start
          [deliver (GTID_EVENT 1 0 5 0);
           deliver (TABLE_MAP_EVENT 1 "db" "a"); deliver (TABLE_MAP_EVENT 2 "db" "b");
           deliver (write_rows 1); deliver (write_rows 2)]
        = Done (Waiting s)
        ∧ ok s = true
        ∧ tables_find 2 (m_tables s) = Some None
        ∧ commit_transactions s = Crash)
  ∧ process_events only_a_start
      [deliver (GTID_EVENT 1 0 5 0);
       deliver (TABLE_MAP_EVENT 1 "db" "a"); deliver (TABLE_MAP_EVENT 2 "db" "b");
       deliver (write_rows 1); deliver (write_rows 2); deliver (XID_EVENT 1)]
    = Crash.
Proof.
  split; [|by vm_compute].
  eexists. split; [vm_compute; reflexivity|]. split; [reflexivity|].
  split; reflexivity.
Qed.

(** C2.  A fetch error that is not [CR_SERVER_LOST] ends the loop through
    [break]: the worker has exited, the rollback has run, and [ok] still
    answers true. *)
Theorem terminal_fetch_error_leaves_ok :
  ∃ s, process_events (fresh false (no_filter "") (plain_disk ∅))
         [fetch_error ER_MASTER_FATAL_ERROR_READING_BINLOG]
       = Done (Exited s)
       ∧ ok s = true.
Proof. eexists. split; [vm_compute; reflexivity|reflexivity]. Qed.

(** The other fatal conditions do clear the flag: a GTID past the target
    while skipping, a table that cannot be opened, a commit that fails. *)
Example newer_gtid_run :
  ∃ s, process_events (fresh false (no_filter "0-1-100") (plain_disk ∅))
         [deliver (GTID_EVENT 1 0 150 0)]
       = Done (Exited s)
       ∧ ok s = false.
Proof. eexists. split; [vm_compute; reflexivity|reflexivity]. Qed.

Example table_open_refused_run :
  ∃ s, process_events (fresh false (no_filter "") (plain_disk ∅))
         [deliver (TABLE_MAP_EVENT 7 "rejected" "t")]
       = Done (Exited s)
       ∧ ok s = false.
Proof. eexists. split; [vm_compute; reflexivity|reflexivity]. Qed.

Example commit_failed_run :
  ∃ s, process_events (fresh false (no_filter "") (plain_disk ∅))
         [deliver (TABLE_MAP_EVENT 7 "flaky" "t"); deliver (XID_EVENT 1)]
       = Done (Exited s)
       ∧ ok s = false.
Proof. eexists. split; [vm_compute; reflexivity|reflexivity]. Qed.

Example checkpoint_write_failed_run :
  ∃ s, process_events
         (fresh false (no_filter "")
            {| files := ∅; denied := []; rename_fails := true |})
         [deliver (GTID_EVENT 1 0 5 0); deliver (XID_EVENT 1)]
       = Done (Exited s)
       ∧ ok s = false.
Proof. eexists. split; [vm_compute; reflexivity|reflexivity]. Qed.

(** C6.  With an empty checkpoint file and [errno] clear, the extraction
    fails, [errno] is not [ENOENT], and [load_gtid_state] reports failure:
    the worker stops before its first turn.  Without the file the same
    start-up succeeds and keeps the configured GTID. *)
Theorem empty_checkpoint_aborts :
  (load_gtid_state (fresh false (no_filter "0-1-10") (plain_disk {[ statefile := "" ]}))).1
  = false
  ∧ (∃ s, process_events
            (fresh false (no_filter "0-1-10") (plain_disk {[ statefile := "" ]}))
            [deliver (GTID_EVENT 1 0 10 0)]
          = Done (Exited s)
          ∧ ok s = false)
  ∧ (load_gtid_state (fresh false (no_filter "0-1-10") (plain_disk ∅))).1 = true
  ∧ m_gtid (load_gtid_state (fresh false (no_filter "0-1-10") (plain_disk ∅))).2
    = "0-1-10"
  ∧ (∃ s, process_events (fresh false (no_filter "0-1-10") (plain_disk ∅))
            [deliver (GTID_EVENT 1 0 10 0)]
          = Done (Waiting s)
          ∧ ok s = true ∧ m_gtid s = "0-1-10").
Proof.
  split; [reflexivity|]. split.
  { eexists. split; [vm_compute; reflexivity|reflexivity]. }
  split; [reflexivity|]. split; [reflexivity|].
  eexists. split; [vm_compute; reflexivity|]. split; reflexivity.
Qed.

(** C7.  With only [db.a] accepted: a GTID with the flag, its statement on
    [db.b] (filtered out), a GTID without the flag.  The flag is still set
    when the statement of the second transaction is dispatched, and that
    statement is committed at once. *)
Theorem stale_implicit_commit_flag :
  ∃ s3,
    process_events (fresh false only_db_a (plain_disk ∅))
      [deliver (GTID_EVENT 1 0 1 1); deliver create_b; deliver (GTID_EVENT 1 0 2 0)]
    = Done (Waiting s3)
    ∧ has_flag 0 IMPLICIT_COMMIT_FLAG = false
    ∧ m_current_gtid s3 = "0-1-2"
    ∧ should_process s3 insert_a = Done (true, s3)
    ∧ m_implicit_commit s3 = true
    ∧ ∃ s4, process_one_event s3 insert_a = Done (true, s4)
            ∧ applied (m_executor s4) = [insert_a]
            ∧ m_gtid s4 = "0-1-2"
            ∧ checkpoint s4 = Some ("0-1-2" +:+ endl).
Proof.
  eexists. split; [vm_compute; reflexivity|].
  split; [reflexivity|]. split; [reflexivity|]. split; [reflexivity|].
  split; [reflexivity|].
  eexists. split; [vm_compute; reflexivity|]. split; [reflexivity|].
  split; reflexivity.
Qed.

(** C9.  A rows event for table 7 with an empty registry is accepted,
    enqueues nothing and keeps the mode, but the registry now holds a null
    entry for 7, and the next commit calls through it. *)
Theorem rows_for_unknown_table_adds_null_entry :
  m_tables no_tables = []
  ∧ (∃ s', process_one_event no_tables (write_rows 7) = Done (true, s')
           ∧ m_state s' = m_state no_tables
           ∧ m_executor s' = m_executor no_tables
           ∧ m_tables s' = [(7, None)]
           ∧ m_tables s' ≠ m_tables no_tables
           ∧ commit_transactions s' = Crash)
  ∧ process_events (fresh false (no_filter "") (plain_disk ∅))
      [deliver (GTID_EVENT 1 0 5 0); deliver (write_rows 7); deliver (XID_EVENT 1)]
    = Crash.
Proof.
  split; [reflexivity|]. split; [|reflexivity].
  eexists. split; [reflexivity|]. repeat split; done.
Qed.

(** * Further properties *)

(** ** Rendering and comparing GTIDs *)

Lemma to_gtid_string_inj s d n s' d' n' :
  to_gtid_string s d n = to_gtid_string s' d' n' → s = s' ∧ d = d' ∧ n = n'.
Proof.
  intros H.
  assert (Hparts : strtok (to_gtid_string s d n) "-"
                   = strtok (to_gtid_string s' d' n') "-") by by rewrite H.
  rewrite !strtok_to_gtid_string in Hparts. injection Hparts as Hd Hs Hn.
  apply ostream_put_inj in Hd, Hs, Hn. done.
Qed.

(** X1.  [to_gtid_string] renders two GTID events to the same text exactly
    when they agree on the server, the domain and the sequence number. *)
Theorem to_gtid_string_eqb s d n s' d' n' :
  String.eqb (to_gtid_string s d n) (to_gtid_string s' d' n')
  = (s =? s') && (d =? d') && (n =? n').
Proof.
  destruct (String.eqb_spec (to_gtid_string s d n) (to_gtid_string s' d' n'))
    as [Heq|Hne].
  - apply to_gtid_string_inj in Heq as (-> & -> & ->).
    by rewrite !N.eqb_refl.
  - symmetry. apply not_true_is_false. intros H.
    apply andb_true_iff in H as [H Hn]. apply andb_true_iff in H as [Hs Hd].
    apply N.eqb_eq in Hs, Hd, Hn. subst. done.
Qed.

Lemma existsb_permutation {A} (f : A → bool) (l l' : list A) :
  Permutation l l' → existsb f l = existsb f l'.
Proof.
  induction 1 as [|x l l' _ IH|x y l|l l' l'' _ IH1 _ IH2]; cbn [existsb].
  - done.
  - by rewrite IH.
  - by destruct (f x), (f y).
  - by rewrite IH1.
Qed.

(** X2.  On well-formed GTIDs the answer of [gtid_list_is_newer] does not
    depend on the order of the candidates. *)
Theorem gtid_list_is_newer_permutation debug (target : Gtid)
    (candidates candidates' : list Gtid) :
  wf_gtid target → Forall wf_gtid candidates →
  Permutation candidates candidates' →
  gtid_list_is_newer debug (render target) (map render candidates)
  = gtid_list_is_newer debug (render target) (map render candidates').
Proof.
  intros Ht Hcs Hperm.
  assert (Hcs' : Forall wf_gtid candidates').
  { by rewrite <- Hperm. }
  rewrite !gtid_list_is_newer_render by done.
  f_equal. by apply existsb_permutation.
Qed.

(** ** Finding the start position and connecting *)

Section MoreProperties.
Context `{Env : Environment}.

Lemma last_cons {A} (x : A) (l : list A) (d : A) : List.last (x :: l) d = List.last l x.
Proof.
  revert x d. induction l as [|y l IH]; intros x d; [done|].
  change (List.last (x :: y :: l) d) with (List.last (y :: l) d).
  by rewrite !IH.
Qed.

Lemma scan_binlogs_step_ok gtid (b : BinlogReply) rest rval output :
  gtid_pos_ok b = true → binlog_crossed gtid b = Done false →
  scan_binlogs gtid (b :: rest) rval output
  = scan_binlogs gtid rest rval (binlog_start b).
Proof.
  intros Hok Hcross. cbn [scan_binlogs]. rewrite Hok.
  unfold binlog_crossed, binlog_start in *.
  destruct (2 <? String.length (gtid_pos_row b))%nat; [|done].
  by rewrite Hcross.
Qed.

Lemma scan_binlogs_prefix gtid (before rest : list BinlogReply) : ∀ rval output,
  Forall (fun b => gtid_pos_ok b = true → binlog_crossed gtid b = Done false) before →
  scan_binlogs gtid (before ++ rest)%list rval output
  = scan_binlogs gtid rest (rval && forallb gtid_pos_ok before)
      (List.last (map binlog_start (List.filter gtid_pos_ok before)) output).
Proof.
  induction before as [|b before IH]; intros rval output Hall.
  - cbn. by rewrite andb_true_r.
  - apply Forall_cons in Hall as [Hb Hall].
    change ((b :: before) ++ rest)%list with (b :: (before ++ rest))%list.
    cbn [forallb List.filter]. destruct (gtid_pos_ok b) eqn:Hok.
    + rewrite scan_binlogs_step_ok by auto. rewrite IH by done.
      cbn [map andb]. by rewrite last_cons.
    + cbn [scan_binlogs]. rewrite Hok, IH by done.
      cbn [andb]. by rewrite andb_false_r.
Qed.

(** X3.  The scan of the binary logs stops at the first log at whose start
    the target is already passed and does not look at the logs after it;
    it hands out the start position of the last log before that one whose
    position query succeeded (the caller's [output] if there is none), and
    it reports failure when one of the position queries before the stop
    failed.  When no log has passed the target, the same holds for the
    whole list. *)
Theorem find_binlog_start_gtid_scan (s : Imp) (r : ConnectReply)
    (before : list BinlogReply) (output : string) :
  probe_connect_ok r = true →
  Forall (fun b => gtid_pos_ok b = true → binlog_crossed (m_gtid s) b = Done false)
         before →
  (∀ b after,
     show_binary_logs r = Some (before ++ b :: after)%list →
     gtid_pos_ok b = true → binlog_crossed (m_gtid s) b = Done true →
     find_binlog_start_gtid s r output
     = Done (forallb gtid_pos_ok before,
             List.last (map binlog_start (List.filter gtid_pos_ok before)) output))
  ∧ (show_binary_logs r = Some before →
     find_binlog_start_gtid s r output
     = Done (forallb gtid_pos_ok before,
             List.last (map binlog_start (List.filter gtid_pos_ok before)) output)).
Proof.
  intros Hprobe Hbefore. unfold find_binlog_start_gtid. rewrite Hprobe. split.
  - intros b after -> Hok Hcross. rewrite scan_binlogs_prefix by done.
    cbn [scan_binlogs andb]. rewrite Hok.
    unfold binlog_crossed, binlog_start in Hcross.
    destruct (2 <? String.length (gtid_pos_row b))%nat; [|done].
    by rewrite Hcross.
  - intros ->. rewrite <- (app_nil_r before) at 1.
    by rewrite scan_binlogs_prefix.
Qed.

(** X4.  [connect] reports success exactly when it leaves a session behind;
    it changes nothing but the session and the skip state; and a session
    opened while a resume GTID is set always starts in skip state [ALL]. *)
Theorem connect_session (s : Imp) (r : ConnectReply) connected s1 :
  connect s r = Done (connected, s1) →
  (connected = true ↔ is_Some (m_sql s1))
  ∧ s1 = set_sql (m_sql s1) (set_skip (m_skip s1) s)
  ∧ (m_skip s1 = m_skip s ∨ m_skip s1 = ALL)
  ∧ (m_sql s = None → connected = true → m_gtid s ≠ "" → m_skip s1 = ALL)
  ∧ (m_sql s = None → m_gtid s = "" → m_skip s1 = m_skip s).
Proof.
  unfold connect. destruct (m_sql s) as [c|] eqn:Hsql.
  - intros [= <- <-]. rewrite Hsql.
    repeat split; try done; try by eauto. by destruct s; cbn in *; subst.
  - destruct (String.eqb_spec (m_gtid s) "") as [Hg|Hg]; cbn [negb].
    + cbn [mbind result_bind].
      destruct (connect_ok r && prepare_ok r && replicate_ok r);
        intros [= <- <-]; cbn [m_sql m_skip set_sql];
        (split; [split; [by eauto|by intros []]|]);
        (split; [by destruct s|]); repeat split; auto; done.
    + destruct (find_binlog_start_gtid s r "") as [[[] start]|];
        cbn [mbind result_bind]; [| |done].
      * destruct (connect_ok r && prepare_ok r && replicate_ok r);
          intros [= <- <-]; cbn [m_sql m_skip set_sql set_skip];
          (split; [split; [by eauto|by intros []]|]);
          (split; [by destruct s|]); repeat split; auto; done.
      * intros [= <- <-]. rewrite Hsql.
        split; [split; [done|by intros []]|].
        split; [by destruct s; cbn in *; subst|]. repeat split; auto; done.
Qed.

(** ** The checkpoint file *)

Lemma spaceless_append (a b : string) :
  spaceless (a +:+ b) = spaceless a && spaceless b.
Proof.
  induction a as [|c a IH]; [done|]. rewrite append_cons. cbn [spaceless].
  by rewrite IH, andb_assoc.
Qed.

Lemma digits_only_spaceless (s : string) : digits_only s = true → spaceless s = true.
Proof.
  induction s as [|c r IH]; [done|]. cbn [digits_only spaceless].
  destruct (digit_val c) as [d|] eqn:Hc; [|done].
  destruct (digit_val_cases _ _ Hc) as (-> & _). intros H. by rewrite IH.
Qed.

Lemma to_gtid_string_word sid did seq :
  spaceless (to_gtid_string sid did seq) = true ∧ to_gtid_string sid did seq ≠ "".
Proof.
  unfold to_gtid_string. split.
  - rewrite !spaceless_append.
    rewrite (digits_only_spaceless (ostream_put did)),
      (digits_only_spaceless (ostream_put sid)),
      (digits_only_spaceless (ostream_put seq)) by apply ostream_put_digits.
    reflexivity.
  - pose proof (ostream_put_nonempty did) as H.
    destruct (ostream_put did); [done|]. by rewrite append_cons.
Qed.

Lemma take_word_line (g : string) :
  spaceless g = true → take_word (g +:+ endl) = g.
Proof.
  induction g as [|c g IH]; [done|]. rewrite append_cons. cbn [spaceless take_word].
  intros H. apply andb_true_iff in H as [Hc Hg]. apply negb_true_iff in Hc.
  by rewrite Hc, IH.
Qed.

Lemma extract_word_line (g : string) :
  spaceless g = true → g ≠ "" → extract_word (g +:+ endl) = Some g.
Proof.
  intros Hs Hne. unfold extract_word.
  pose proof (take_word_line g Hs) as Ht.
  destruct g as [|c g]; [done|]. rewrite append_cons in *.
  cbn [spaceless] in Hs. apply andb_true_iff in Hs as [Hc _].
  apply negb_true_iff in Hc. cbn [skip_space]. rewrite Hc. by rewrite Ht.
Qed.

Lemma save_gtid_state_value (s : Imp) :
  (save_gtid_state s).1 = writable (disk s).
Proof.
  unfold save_gtid_state, writable. cbv zeta.
  destruct (path_denied _ _); [done|]. by destruct (rename_fails _).
Qed.

Lemma save_gtid_state_checkpoint (s : Imp) :
  checkpoint (save_gtid_state s).2
  = if (save_gtid_state s).1 then Some (m_current_gtid s +:+ endl) else checkpoint s.
Proof.
  destruct (save_gtid_state s).1 eqn:Hv.
  - rewrite save_gtid_state_value in Hv. by apply save_gtid_state_writable.
  - by apply save_gtid_state_failed.
Qed.

(** X5.  What [save_gtid_state] writes, [load_gtid_state] reads back: after
    a successful save of a current GTID rendered by [to_gtid_string], a
    start-up on that disk (with the checkpoint file readable) succeeds and
    makes the saved GTID the resume target, whatever GTID was configured. *)
Theorem save_then_load (s s1 s2 : Imp) sid did seq :
  m_current_gtid s = to_gtid_string sid did seq →
  save_gtid_state s = (true, s1) →
  disk s2 = disk s1 →
  path_denied (disk s2) (STATEFILE_DIR +:+ STATEFILE_NAME) = false →
  load_gtid_state s2 = (true, set_gtid (m_current_gtid s) s2).
Proof.
  intros Hcur Hsave Hdisk Hread.
  pose proof (save_gtid_state_checkpoint s) as Hck. rewrite Hsave in Hck.
  cbn [fst snd] in Hck. unfold checkpoint in Hck. rewrite <- Hdisk in Hck.
  unfold load_gtid_state, ifstream_open. cbv zeta. rewrite Hread, Hck.
  cbn [mbind option_bind]. rewrite Hcur.
  destruct (to_gtid_string_word sid did seq) as [Hs Hne].
  rewrite extract_word_line by done. rewrite set_errno_same.
  apply String.eqb_neq in Hne. by rewrite Hne.
Qed.

(** X6.  [save_gtid_state] succeeds exactly when the temporary file can be
    opened and the rename works.  It then leaves the checkpoint file with
    the current GTID and a newline and no temporary file; when it fails the
    checkpoint file is what it was.  Either way only the disk and [errno]
    may differ afterwards. *)
Theorem save_gtid_state_outcome (s : Imp) :
  (save_gtid_state s).1 = writable (disk s)
  ∧ set_errno (errno s) (set_disk (disk s) (save_gtid_state s).2) = s
  ∧ (if writable (disk s)
     then checkpoint (save_gtid_state s).2 = Some (m_current_gtid s +:+ endl)
          ∧ files (disk (save_gtid_state s).2) !! tmpfile = None
     else checkpoint (save_gtid_state s).2 = checkpoint s).
Proof.
  split; [apply save_gtid_state_value|]. split.
  - unfold save_gtid_state. cbv zeta.
    destruct (path_denied _ _); [by destruct s|].
    destruct (rename_fails _); by destruct s.
  - pose proof (save_gtid_state_checkpoint s) as Hck.
    rewrite save_gtid_state_value in Hck.
    destruct (writable (disk s)) eqn:Hw; [|done]. split; [done|].
    unfold writable in Hw. apply andb_true_iff in Hw as [Hd Hr].
    apply negb_true_iff in Hd, Hr.
    unfold save_gtid_state, tmpfile. cbv zeta. rewrite Hd, Hr.
    cbn [snd disk set_disk files].
    rewrite lookup_insert_ne by (symmetry; apply statefile_not_tmp).
    apply lookup_delete_eq.
Qed.

Lemma commit_transactions_checkpoint_value (s : Imp) rval s' :
  commit_transactions s = Done (rval, s') →
  checkpoint s'
  = if rval then Some (m_current_gtid s +:+ endl) else checkpoint s.
Proof.
  intros H. destruct rval; [|by apply commit_transactions_failed].
  apply commit_transactions_cases in H as [_ H].
  destruct (all_committed s); [|done].
  pose proof (save_gtid_state_checkpoint (after_commits s)) as Hck.
  rewrite <- H in Hck. exact Hck.
Qed.

(** X7.  With every registry entry an open table, [commit_transactions]
    returns true exactly when the executor, every table and the checkpoint
    write succeeded; the checkpoint file then holds the current GTID, and
    in every other case it is what it was before the call. *)
Theorem commit_transactions_result (s : Imp) :
  all_open (m_tables s) = true →
  ∃ s', commit_transactions s
        = Done (all_committed s && writable (disk s), s')
        ∧ checkpoint s'
          = (if all_committed s && writable (disk s)
             then Some (m_current_gtid s +:+ endl) else checkpoint s).
Proof.
  intros Hopen. rewrite commit_transactions_open by done.
  destruct (all_committed s) eqn:Hall; cbn [andb].
  - exists (save_gtid_state (after_commits s)).2.
    change (writable (disk s)) with (writable (disk (after_commits s))).
    rewrite <- (save_gtid_state_value (after_commits s)). split.
    + by destruct (save_gtid_state (after_commits s)).
    + by rewrite save_gtid_state_checkpoint.
  - by exists (after_commits s).
Qed.

Lemma process_one_event_checkpoint (s : Imp) ev rval s' :
  process_one_event s ev = Done (rval, s') →
  checkpoint s' = checkpoint s
  ∨ checkpoint s' = Some (m_current_gtid s' +:+ endl).
Proof.
  destruct ev as [sid did seq flags|n|id db tbl|db stmt|kind id|n];
    cbn [process_one_event].
  - destruct (has_flag _ _); intros [= _ <-]; by left.
  - destruct (commit_transactions s) as [[r s1]|] eqn:Hc; [|done].
    pose proof (commit_transactions_checkpoint_value _ _ _ Hc) as Hck.
    pose proof (commit_transactions_frame _ _ _ Hc) as (_&_&_&_&Hcur&_).
    cbn [mbind result_bind]. destruct r; intros [= _ <-]; [right|by left].
    cbn [set_gtid m_current_gtid]. unfold checkpoint in *.
    cbn [disk set_gtid]. by rewrite Hcur.
  - destruct (Table_open _ _); intros [= _ <-]; by left.
  - assert (Hset : ∀ r s1, set_state STMT s = Done (r, s1) →
             (checkpoint s1 = checkpoint s
              ∨ checkpoint s1 = Some (m_current_gtid s +:+ endl))
             ∧ m_current_gtid s1 = m_current_gtid s).
    { intros r s1 Hs. pose proof (set_state_frame _ _ _ _ Hs) as (_ & Hcur & _).
      split; [|done]. destruct (decide (m_state s = STMT)) as [Heq|Hne].
      - rewrite set_state_same in Hs by done. injection Hs as _ <-. by left.
      - rewrite set_state_switch in Hs by done.
        destruct (commit_transactions s) as [[r1 s2]|] eqn:Hc; [|done].
        pose proof (commit_transactions_checkpoint_value _ _ _ Hc) as Hck.
        cbn [mbind result_bind] in Hs.
        destruct r1; injection Hs as _ <-; [by right|by left]. }
    destruct (set_state STMT s) as [[r s1]|] eqn:Hs; [|done].
    destruct (Hset _ _ eq_refl) as [Hck1 Hcur1].
    cbn [mbind result_bind]. destruct r.
    + destruct (m_implicit_commit _).
      * intros Hc.
        pose proof (commit_transactions_checkpoint_value _ _ _ Hc) as Hck.
        pose proof (commit_transactions_frame _ _ _ Hc) as (_&_&_&_&Hcur&_).
        cbn [m_current_gtid set_gtid set_implicit_commit set_executor] in Hck, Hcur.
        unfold checkpoint in *.
        cbn [disk set_gtid set_implicit_commit set_executor] in Hck.
        rewrite Hcur, Hcur1. rewrite Hcur1 in Hck.
        destruct rval; [by right|]. by rewrite Hck.
      * intros [= _ <-]. unfold checkpoint in *.
        cbn [disk set_executor m_current_gtid]. by rewrite Hcur1.
    + intros [= _ <-]. by rewrite Hcur1.
  - destruct (tables_find id (m_tables (set_tables _ s))) as [[t|]|] eqn:Hf;
      [|intros [= _ <-]; by left..].
    cbn [m_tables set_tables] in Hf.
    apply tables_index_known in Hf as [Hidx Hf]. rewrite Hidx, set_tables_same.
    destruct (set_state BULK s) as [[r s1]|] eqn:Hs; [|done].
    pose proof (set_state_frame _ _ _ _ Hs) as (_ & Hcur & _).
    assert (Hck : checkpoint s1 = checkpoint s
                  ∨ checkpoint s1 = Some (m_current_gtid s1 +:+ endl)).
    { destruct (decide (m_state s = BULK)) as [Heq|Hne].
      - rewrite set_state_same in Hs by done. injection Hs as _ <-. by left.
      - rewrite set_state_switch in Hs by done.
        destruct (commit_transactions s) as [[r1 s2]|] eqn:Hc; [|done].
        pose proof (commit_transactions_checkpoint_value _ _ _ Hc) as Hck.
        pose proof (commit_transactions_frame _ _ _ Hc) as (_&_&_&_&Hcur2&_).
        cbn [mbind result_bind] in Hs.
        destruct r1; injection Hs as _ <-; [right|by left].
        unfold checkpoint in *. cbn [disk set_mode m_current_gtid].
        by rewrite Hcur2. }
    cbn [mbind result_bind]. destruct r; intros [= _ <-]; exact Hck.
  - intros [= _ <-]. by left.
Qed.

(** X8.  Whatever event [process_one_event] handles, the checkpoint file
    afterwards is either untouched or holds the GTID that is current after
    the event: the file never names a transaction other than the one being
    processed when it was written. *)
Theorem checkpoint_names_current_gtid (s : Imp) ev rval s' :
  process_one_event s ev = Done (rval, s') →
  checkpoint s' = checkpoint s
  ∨ checkpoint s' = Some (m_current_gtid s' +:+ endl).
Proof. exact (process_one_event_checkpoint s ev rval s'). Qed.

(** ** The dispatcher *)

Lemma set_state_checkpoint (state : State) (s : Imp) s1 :
  m_state s ≠ state → set_state state s = Done (true, s1) →
  checkpoint s1 = Some (m_current_gtid s +:+ endl)
  ∧ m_gtid s1 = m_gtid s ∧ m_state s1 = state
  ∧ m_implicit_commit s1 = m_implicit_commit s
  ∧ m_current_gtid s1 = m_current_gtid s.
Proof.
  intros Hne Hs. rewrite set_state_switch in Hs by done.
  destruct (commit_transactions s) as [[[] s2]|] eqn:Hc; [| |done];
    cbn [mbind result_bind] in Hs; [|done]. injection Hs as <-.
  pose proof (commit_transactions_checkpoint_value _ _ _ Hc) as Hck.
  pose proof (commit_transactions_frame _ _ _ Hc) as (_&_&_&Hg&Hcur&_&Hi&_).
  done.
Qed.

(** X9.  A commit forced by a change of mode rewrites the checkpoint file
    with the current GTID but leaves [m_gtid], the resume target kept in
    memory, as it was: this holds for a rows event for an open table that
    arrives in [STMT] mode and for a query event without implicit commit
    that arrives in [BULK] mode. *)
Theorem mode_switch_checkpoint (s : Imp) ev s' :
  process_one_event s ev = Done (true, s') →
  (∀ kind id t,
     ev = ROWS_EVENT kind id → tables_find id (m_tables s) = Some (Some t) →
     m_state s = STMT →
     checkpoint s' = Some (m_current_gtid s +:+ endl)
     ∧ m_gtid s' = m_gtid s ∧ m_state s' = BULK)
  ∧ (∀ db stmt,
       ev = QUERY_EVENT db stmt → m_implicit_commit s = false →
       m_state s = BULK →
       checkpoint s' = Some (m_current_gtid s +:+ endl)
       ∧ m_gtid s' = m_gtid s ∧ m_state s' = STMT).
Proof.
  intros Hp. split.
  - intros kind id t -> Hf Hmode. rewrite (rows_event_known _ _ _ _ Hf) in Hp.
    destruct (set_state BULK s) as [[[] s1]|] eqn:Hs; [| |done];
      cbn [mbind result_bind] in Hp; [|done]. injection Hp as <-.
    destruct (set_state_checkpoint BULK s s1) as (Hck & Hg & Hm & _);
      [by rewrite Hmode|done|]. done.
  - intros db stmt -> Himp Hmode. cbn [process_one_event] in Hp.
    destruct (set_state STMT s) as [[[] s1]|] eqn:Hs; [| |done];
      cbn [mbind result_bind] in Hp; [|done].
    destruct (set_state_checkpoint STMT s s1) as (Hck & Hg & Hm & Hi & _);
      [by rewrite Hmode|done|].
    cbn [m_implicit_commit set_executor] in Hp. rewrite Hi, Himp in Hp.
    by injection Hp as <-.
Qed.

Lemma process_one_event_m_gtid (s : Imp) ev rval s' :
  process_one_event s ev = Done (rval, s') →
  m_gtid s' = m_gtid s
  ∨ (m_gtid s' = m_current_gtid s
     ∧ (is_xid_event ev = true ∧ rval = true
        ∨ is_query_event ev = true ∧ m_implicit_commit s = true)).
Proof.
  destruct ev as [sid did seq flags|n|id db tbl|db stmt|kind id|n];
    cbn [process_one_event].
  - destruct (has_flag _ _); intros [= _ <-]; by left.
  - destruct (commit_transactions s) as [[r s1]|] eqn:Hc; [|done].
    pose proof (commit_transactions_frame _ _ _ Hc) as (_&_&_&Hg&Hcur&_).
    cbn [mbind result_bind]. destruct r; intros [= <- <-]; [right|by left].
    cbn [m_gtid set_gtid]. by auto.
  - destruct (Table_open _ _); intros [= _ <-]; by left.
  - destruct (set_state STMT s) as [[r s1]|] eqn:Hs; [|done].
    pose proof (set_state_frame _ _ _ _ Hs) as (Hg & Hcur & Hi & _).
    cbn [mbind result_bind]. destruct r; [|intros [= _ <-]; by left].
    cbn [m_implicit_commit set_executor]. rewrite Hi.
    destruct (m_implicit_commit s); [|intros [= _ <-]; by left].
    intros Hc. pose proof (commit_transactions_frame _ _ _ Hc) as (_&_&_&Hg'&_).
    right. cbn [m_gtid set_gtid m_current_gtid set_executor] in Hg'.
    rewrite Hg', Hcur. by auto.
  - destruct (tables_find id (m_tables (set_tables _ s))) as [[t|]|] eqn:Hf;
      [|intros [= _ <-]; by left..].
    cbn [m_tables set_tables] in Hf.
    apply tables_index_known in Hf as [Hidx Hf]. rewrite Hidx, set_tables_same.
    destruct (set_state BULK s) as [[r s1]|] eqn:Hs; [|done].
    pose proof (set_state_frame _ _ _ _ Hs) as (Hg & _).
    cbn [mbind result_bind]. destruct r; intros [= _ <-]; by left.
  - intros [= _ <-]. by left.
Qed.

(** X10.  [process_one_event] assigns [m_gtid] in two places only: it
    becomes the current GTID after an XID event whose commit succeeded and
    when a query event is handled with the implicit-commit flag set; every
    other event, and every other outcome, leaves it alone. *)
Theorem m_gtid_advances (s : Imp) ev rval s' :
  process_one_event s ev = Done (rval, s') →
  m_gtid s' = m_gtid s
  ∨ (m_gtid s' = m_current_gtid s
     ∧ (is_xid_event ev = true ∧ rval = true
        ∨ is_query_event ev = true ∧ m_implicit_commit s = true)).
Proof. exact (process_one_event_m_gtid s ev rval s'). Qed.

Lemma set_state_done (state : State) (s : Imp) s1 :
  set_state state s = Done (true, s1) → m_state s1 = state.
Proof.
  intros Hs. destruct (decide (m_state s = state)) as [Heq|Hne].
  - rewrite set_state_same in Hs by done. by injection Hs as <-.
  - by destruct (set_state_checkpoint state s s1) as (_ & _ & Hm & _).
Qed.

(** X11.  After a query event has been processed successfully the mode is
    [STMT], after a rows event for an open table it is [BULK], and no other
    event changes the mode. *)
Theorem mode_after_event (s : Imp) ev s' :
  process_one_event s ev = Done (true, s') →
  (is_query_event ev = true → m_state s' = STMT)
  ∧ (∀ kind id t, ev = ROWS_EVENT kind id →
       tables_find id (m_tables s) = Some (Some t) → m_state s' = BULK)
  ∧ (is_query_event ev = false → is_rows_event ev = false →
       m_state s' = m_state s).
Proof.
  intros Hp. split; [|split].
  - intros Hq. destruct ev; try done. cbn [process_one_event] in Hp.
    destruct (set_state STMT s) as [[[] s1]|] eqn:Hs; [| |done];
      cbn [mbind result_bind] in Hp; [|done].
    pose proof (set_state_done _ _ _ Hs) as Hm.
    destruct (m_implicit_commit _); [|by injection Hp as <-].
    pose proof (commit_transactions_frame _ _ _ Hp) as (_&_&_&_&_&Hm'&_).
    by rewrite Hm'.
  - intros kind id t -> Hf. rewrite (rows_event_known _ _ _ _ Hf) in Hp.
    destruct (set_state BULK s) as [[[] s1]|] eqn:Hs; [| |done];
      cbn [mbind result_bind] in Hp; [|done]. injection Hp as <-.
    by apply (set_state_done _ _ _ Hs).
  - intros Hq Hr. destruct ev; try done; cbn [process_one_event] in Hp.
    + destruct (has_flag _ _); by injection Hp as <-.
    + destruct (commit_transactions s) as [[[] s1]|] eqn:Hc; [| |done];
        cbn [mbind result_bind] in Hp; [|done]. injection Hp as <-.
      by pose proof (commit_transactions_frame _ _ _ Hc) as (_&_&_&_&_&Hm&_).
    + destruct (Table_open _ _); [|done]. by injection Hp as <-.
    + by injection Hp as <-.
Qed.

(** X12.  The implicit-commit flag is raised by a GTID event that carries
    [IMPLICIT_COMMIT_FLAG] and never lowered by a GTID event; a query event
    that is processed successfully leaves it cleared; no other event
    touches it. *)
Theorem implicit_commit_flag_lifecycle (s : Imp) ev rval s' :
  process_one_event s ev = Done (rval, s') →
  (∀ sid did seq flags, ev = GTID_EVENT sid did seq flags →
     m_implicit_commit s'
     = m_implicit_commit s || has_flag flags IMPLICIT_COMMIT_FLAG)
  ∧ (is_query_event ev = true → rval = true → m_implicit_commit s' = false)
  ∧ (is_gtid_event ev = false → is_query_event ev = false →
       m_implicit_commit s' = m_implicit_commit s).
Proof.
  intros Hp. split; [|split].
  - intros sid did seq flags ->. cbn [process_one_event] in Hp.
    destruct (has_flag _ _); injection Hp as _ <-; cbn;
      by rewrite ?orb_true_r, ?orb_false_r.
  - intros Hq ->. destruct ev; try done. cbn [process_one_event] in Hp.
    destruct (set_state STMT s) as [[[] s1]|] eqn:Hs; [| |done];
      cbn [mbind result_bind] in Hp; [|done].
    destruct (m_implicit_commit _) eqn:Hi; [|by injection Hp as <-].
    by pose proof (commit_transactions_frame _ _ _ Hp) as (_&_&_&_&_&_&Hi'&_).
  - intros Hg Hq. destruct ev; try done; cbn [process_one_event] in Hp.
    + destruct (commit_transactions s) as [[[] s1]|] eqn:Hc; [| |done];
        cbn [mbind result_bind] in Hp; injection Hp as _ <-;
        by pose proof (commit_transactions_frame _ _ _ Hc) as (_&_&_&_&_&_&Hi&_).
    + destruct (Table_open _ _); by injection Hp as _ <-.
    + destruct (tables_find table_id (m_tables (set_tables _ s)))
        as [[t|]|] eqn:Hf; [|by injection Hp as _ <-..].
      cbn [m_tables set_tables] in Hf.
      apply tables_index_known in Hf as [Hidx Hf].
      rewrite Hidx, set_tables_same in Hp.
      destruct (set_state BULK s) as [[r s1]|] eqn:Hs; [|done].
      pose proof (set_state_frame _ _ _ _ Hs) as (_ & _ & Hi & _).
      cbn [mbind result_bind] in Hp. by destruct r; injection Hp as _ <-.
    + by injection Hp as _ <-.
Qed.

(** X13.  Every entry of the registry stays an open table under every event
    except a rows event whose table identifier is not registered, and as
    long as it holds [process_one_event] returns. *)
Theorem registry_stays_open (s : Imp) ev :
  all_open (m_tables s) = true →
  (∀ kind id, ev = ROWS_EVENT kind id → tables_find id (m_tables s) ≠ None) →
  ∃ rval s', process_one_event s ev = Done (rval, s')
             ∧ all_open (m_tables s') = true.
Proof.
  intros Hopen Hknown.
  destruct (process_one_event_returns s ev Hopen) as (rval & s' & Hp).
  exists rval, s'. split; [done|].
  by apply (process_one_event_keeps_open s ev rval s').
Qed.

(** ** The table filter and the registry *)

Lemma check_query_tables_forallb cnf db (l : list string) : ∀ rval,
  check_query_tables cnf db l rval
  = rval && forallb (fun tbl => accepted cnf (qualified db tbl)) l.
Proof.
  induction l as [|tbl l IH]; intros rval; cbn [check_query_tables forallb].
  - by rewrite andb_true_r.
  - rewrite IH. unfold qualified.
    destruct (accepted cnf _); cbn [andb]; [done|]. by rewrite andb_false_r.
Qed.

(** X14.  When nothing is being skipped, [should_process] leaves the state
    alone and answers as the table filter does: without a table list every
    event passes; with one, a table-map event passes when its
    [database.table] is listed, a query event passes when every table name
    the classifier finds in it (qualified by the event's database when it
    has no dot) is listed, and every other event passes. *)
Theorem should_process_filter (s : Imp) ev :
  m_skip s = NONE →
  should_process s ev = Done (passes_filter (m_cnf s) ev, s).
Proof.
  intros Hskip. unfold should_process, passes_filter.
  destruct (decide (m_skip s ≠ NONE)) as [Hn|_]; [done|].
  destruct (cnf_tables (m_cnf s)) as [|x l] eqn:Hl; [done|].
  rewrite bool_decide_eq_false_2 by done. cbn [negb].
  destruct ev; try done.
  rewrite check_query_tables_forallb. cbn [andb]. unfold accepted. by rewrite Hl.
Qed.

Lemma tables_find_replace_eq id v (l : list (N * option Table)) slot :
  tables_find id l = Some slot → tables_find id (tables_replace id v l) = Some v.
Proof.
  induction l as [|[k x] l IH]; [done|]. cbn [tables_find tables_replace].
  destruct (k =? id) eqn:Hk; cbn [tables_find]; rewrite Hk; [done|]. exact IH.
Qed.

Lemma tables_find_replace_ne id k v (l : list (N * option Table)) :
  k ≠ id → tables_find k (tables_replace id v l) = tables_find k l.
Proof.
  intros Hne. induction l as [|[kk x] l IH]; [done|].
  cbn [tables_find tables_replace].
  destruct (N.eqb_spec kk id) as [->|Hk]; cbn [tables_find].
  - apply N.eqb_neq in Hne. rewrite N.eqb_sym in Hne. by rewrite Hne.
  - by rewrite IH.
Qed.

Lemma tables_find_index_ne id k (l : list (N * option Table)) :
  k ≠ id → tables_find k (tables_index id l) = tables_find k l.
Proof.
  intros Hne. unfold tables_index. destruct (tables_find id l); [done|].
  rewrite tables_find_app. cbn [tables_find].
  apply N.eqb_neq in Hne. rewrite N.eqb_sym in Hne. rewrite Hne.
  by destruct (tables_find k l).
Qed.

Lemma tables_find_index_eq id (l : list (N * option Table)) :
  ∃ slot, tables_find id (tables_index id l) = Some slot.
Proof.
  unfold tables_index. destruct (tables_find id l) as [slot|] eqn:Hf.
  - by exists slot.
  - exists None. rewrite tables_find_app, Hf. cbn. by rewrite N.eqb_refl.
Qed.

Lemma tables_find_assign_eq id v (l : list (N * option Table)) :
  tables_find id (tables_assign id v l) = Some v.
Proof.
  unfold tables_assign. destruct (tables_find_index_eq id l) as [slot Hs].
  by apply (tables_find_replace_eq _ _ _ slot).
Qed.

Lemma tables_find_assign_ne id k v (l : list (N * option Table)) :
  k ≠ id → tables_find k (tables_assign id v l) = tables_find k l.
Proof.
  intros Hne. unfold tables_assign.
  by rewrite tables_find_replace_ne, tables_find_index_ne.
Qed.

Lemma tables_find_call_eq id f (l : list (N * option Table)) :
  tables_find id (tables_call id f l)
  = (fun slot : option Table => f <$> slot) <$> tables_find id l.
Proof.
  induction l as [|[k x] l IH]; [done|]. cbn [tables_find tables_call].
  destruct (k =? id) eqn:Hk; cbn [tables_find]; rewrite Hk; [done|]. exact IH.
Qed.

Lemma tables_find_call_ne id k f (l : list (N * option Table)) :
  k ≠ id → tables_find k (tables_call id f l) = tables_find k l.
Proof.
  intros Hne. induction l as [|[kk x] l IH]; [done|].
  cbn [tables_find tables_call].
  destruct (N.eqb_spec kk id) as [->|Hk]; cbn [tables_find].
  - apply N.eqb_neq in Hne. rewrite N.eqb_sym in Hne. by rewrite Hne.
  - by rewrite IH.
Qed.

(** X15.  A table-map event whose table opens puts that table in the
    registry under the event's identifier, in place of whatever was there;
    every other identifier keeps its entry and nothing else changes.  When
    the table does not open the event fails and the state is untouched. *)
Theorem table_map_registers (s : Imp) id db tbl :
  match Table_open (m_cnf s) (TABLE_MAP_EVENT id db tbl) with
  | Some t =>
      ∃ s', process_one_event s (TABLE_MAP_EVENT id db tbl) = Done (true, s')
            ∧ tables_find id (m_tables s') = Some (Some t)
            ∧ (∀ k, k ≠ id → tables_find k (m_tables s') = tables_find k (m_tables s))
            ∧ set_tables (m_tables s) s' = s
  | None => process_one_event s (TABLE_MAP_EVENT id db tbl) = Done (false, s)
  end.
Proof.
  cbn [process_one_event]. destruct (Table_open _ _) as [t|]; [|done].
  eexists. split; [done|]. cbn [m_tables set_tables].
  split; [apply tables_find_assign_eq|]. split.
  - intros k Hk. by apply tables_find_assign_ne.
  - by destruct s.
Qed.

(** X16.  A rows event that follows the table-map event of its table in
    [BULK] mode is handed to the table that event opened: no commit runs,
    the executor and the disk are untouched, and the other registry
    entries are as before the two events. *)
Theorem table_map_then_rows (s : Imp) id db tbl kind t :
  Table_open (m_cnf s) (TABLE_MAP_EVENT id db tbl) = Some t →
  m_state s = BULK →
  ∃ s1 s2,
    process_one_event s (TABLE_MAP_EVENT id db tbl) = Done (true, s1)
    ∧ process_one_event s1 (ROWS_EVENT kind id) = Done (true, s2)
    ∧ tables_find id (m_tables s2)
      = Some (Some (table_enqueue (ROWS_EVENT kind id) t))
    ∧ (∀ k, k ≠ id → tables_find k (m_tables s2) = tables_find k (m_tables s))
    ∧ m_executor s2 = m_executor s ∧ disk s2 = disk s ∧ m_state s2 = BULK.
Proof.
  intros Hopen Hmode. eexists _, _. split.
  { cbn [process_one_event]. by rewrite Hopen. }
  split.
  { rewrite (rows_event_known _ _ _ t).
    - by rewrite set_state_same.
    - cbn [m_tables set_tables]. apply tables_find_assign_eq. }
  cbn [mbind result_bind m_tables set_tables m_executor disk m_state].
  split; [by rewrite tables_find_call_eq, tables_find_assign_eq|].
  split; [|done]. intros k Hk.
  by rewrite tables_find_call_ne, tables_find_assign_ne.
Qed.

(** X17.  While skipping in state [ALL] towards a well-formed target, a
    well-formed GTID event is never let through, and what it does depends
    on the GTID alone: the target itself arms [NEXT_STMT] or [NEXT_TRX], a
    GTID of the target's domain with a greater sequence number clears
    [m_running], and any other GTID changes nothing. *)
Theorem gtid_event_while_skipping (s : Imp) (target c : Gtid) flags :
  m_skip s = ALL → m_gtid s = render target →
  wf_gtid target → wf_gtid c →
  should_process s (GTID_EVENT (server c) (domain c) (sequence c) flags)
  = Done (false,
          if same_gtid c target
          then set_skip (if has_flag flags IMPLICIT_COMMIT_FLAG
                         then NEXT_STMT else NEXT_TRX) s
          else if newer_than target c then set_running false s else s).
Proof.
  intros Hskip Htarget Hwt Hwc. unfold should_process.
  destruct (decide (m_skip s ≠ NONE)) as [_|Hn]; [|exfalso; apply Hn; by rewrite Hskip].
  rewrite Hskip, bool_decide_eq_true_2, mxb_assert_true by done.
  cbn [mbind result_bind]. rewrite Htarget.
  change (to_gtid_string (server c) (domain c) (sequence c)) with (render c).
  destruct (String.eqb_spec (render c) (render target)) as [Heq|Hne].
  - apply to_gtid_string_inj in Heq as (Hs & Hd & Hn).
    unfold same_gtid. by rewrite Hs, Hd, Hn, !N.eqb_refl.
  - assert (Hsame : same_gtid c target = false).
    { apply not_true_is_false. intros H. apply Hne. unfold same_gtid in H.
      apply andb_true_iff in H as [H Hn]. apply andb_true_iff in H as [Hs Hd].
      apply N.eqb_eq in Hs, Hd, Hn. unfold render. by rewrite Hs, Hd, Hn. }
    rewrite Hsame. change [render c] with (map render [c]).
    rewrite gtid_list_is_newer_render by (done || by apply Forall_cons).
    cbn [existsb]. rewrite orb_false_r. cbn [mbind result_bind].
    by destruct (newer_than target c).
Qed.

(** ** The event loop *)


Lemma event_loop_delivery (s : Imp) c ev rest :
  m_running s = true → is_Some (m_sql s) →
  event_loop s (delivery c ev :: rest)
  = s2 ← handle_event s ev; event_loop s2 rest.
Proof.
  intros Hrun [sql Hsql]. cbn [event_loop]. rewrite Hrun.
  unfold connect. by rewrite Hsql.
Qed.

Lemma event_loop_discard (s : Imp) c (body : list Event) rest :
  m_running s = true → is_Some (m_sql s) → m_skip s = NEXT_TRX →
  Forall (fun e => is_gtid_event e = false ∧ is_xid_event e = false) body →
  event_loop s (map (delivery c) body ++ rest)%list = event_loop s rest.
Proof.
  intros Hrun Hsql Hskip Hbody. induction Hbody as [|e body [Hg Hx] _ IH]; [done|].
  cbn [map app]. rewrite event_loop_delivery by done.
  unfold handle_event. rewrite should_process_not_gtid by (done || by rewrite Hskip).
  rewrite Hskip, Hx. exact IH.
Qed.

(** X19.  Resuming at a transaction that ends with an XID event: in skip
    state [ALL], the GTID event of the target (without the implicit-commit
    flag), the events of its transaction and the closing XID event are all
    discarded, and the worker then waits for the next event with skipping
    switched off and everything else as it was. *)
Theorem skipped_transaction (s : Imp) c sid did seq flags (body : list Event) n :
  m_running s = true → is_Some (m_sql s) → m_skip s = ALL →
  m_gtid s = to_gtid_string sid did seq →
  has_flag flags IMPLICIT_COMMIT_FLAG = false →
  Forall (fun e => is_gtid_event e = false ∧ is_xid_event e = false) body →
  event_loop s (map (delivery c)
                  (GTID_EVENT sid did seq flags :: body ++ [XID_EVENT n]))
  = Done (Waiting (set_skip NONE s)).
Proof.
  intros Hrun Hsql Hskip Hgtid Hflag Hbody.
  cbn [map]. rewrite event_loop_delivery by done.
  unfold handle_event at 1. unfold should_process.
  destruct (decide (m_skip s ≠ NONE)) as [_|Hn]; [|exfalso; apply Hn; by rewrite Hskip].
  rewrite Hskip, bool_decide_eq_true_2, mxb_assert_true by done.
  cbn [mbind result_bind]. rewrite Hgtid, String.eqb_refl, Hflag.
  cbn [mbind result_bind]. rewrite map_app.
  rewrite event_loop_discard by done. cbn [map].
  rewrite event_loop_delivery by done.
  unfold handle_event. rewrite should_process_not_gtid by done.
  cbn [m_skip set_skip bool_decide decide_rel is_xid_event mbind result_bind].
  rewrite bool_decide_eq_false_2, bool_decide_eq_true_2 by done.
  cbn [orb andb event_loop m_running set_skip]. rewrite Hrun. by destruct s.
Qed.

(** X20.  Resuming at an implicitly committed statement: in skip state
    [ALL], the GTID event of the target carrying [IMPLICIT_COMMIT_FLAG] and
    the one event after it (when that is not a GTID event) are discarded,
    and skipping is then switched off. *)
Theorem skipped_implicit_statement (s : Imp) c sid did seq flags ev :
  m_running s = true → is_Some (m_sql s) → m_skip s = ALL →
  m_gtid s = to_gtid_string sid did seq →
  has_flag flags IMPLICIT_COMMIT_FLAG = true →
  is_gtid_event ev = false →
  event_loop s [delivery c (GTID_EVENT sid did seq flags); delivery c ev]
  = Done (Waiting (set_skip NONE s)).
Proof.
  intros Hrun Hsql Hskip Hgtid Hflag Hev.
  rewrite event_loop_delivery by done.
  unfold handle_event at 1. unfold should_process.
  destruct (decide (m_skip s ≠ NONE)) as [_|Hn]; [|exfalso; apply Hn; by rewrite Hskip].
  rewrite Hskip, bool_decide_eq_true_2, mxb_assert_true by done.
  cbn [mbind result_bind]. rewrite Hgtid, String.eqb_refl, Hflag.
  cbn [mbind result_bind]. rewrite event_loop_delivery by done.
  unfold handle_event. rewrite should_process_not_gtid by done.
  cbn [m_skip set_skip mbind result_bind].
  rewrite bool_decide_eq_true_2 by done.
  cbn [orb event_loop m_running set_skip]. rewrite Hrun. by destruct s.
Qed.

Lemma rollback_tables_open (l : list (N * option Table)) :
  all_open l = true → rollback_tables l = Done (map rollback_slot l).
Proof.
  induction l as [|[id [t|]] l IH]; [done| |done]. intros H.
  cbn [rollback_tables map]. rewrite IH by exact H. done.
Qed.

(** X21.  When the checkpoint cannot be loaded the worker is over before it
    starts: whatever the server would answer, no connection is attempted
    and no event is handled; the executor and the tables are rolled back
    and [ok] is false. *)
Theorem failed_load_stops_worker (s : Imp) (rounds : list Round) :
  (load_gtid_state s).1 = false → all_open (m_tables s) = true →
  ∃ s', process_events s rounds = Done (Exited s')
        ∧ ok s' = false
        ∧ m_sql s' = m_sql s ∧ m_skip s' = m_skip s ∧ disk s' = disk s
        ∧ m_executor s' = executor_rollback (m_executor s)
        ∧ m_tables s' = map rollback_slot (m_tables s).
Proof.
  intros Hload Hopen. unfold process_events.
  assert (Hframe : set_errno (errno s) (load_gtid_state s).2 = s).
  { unfold load_gtid_state in *. cbv zeta in *.
    destruct (ifstream_open _ _ _) as [stream e].
    destruct (stream ≫= extract_word); [done|].
    destruct (e =? ENOENT)%Z; [done|]. by destruct s. }
  destruct (load_gtid_state s) as [loaded s0]. cbn [fst snd] in *. subst loaded.
  rewrite event_loop_stopped by done. cbn [mbind result_bind].
  assert (Ht : m_tables s0 = m_tables s) by by rewrite <- Hframe.
  cbn [m_tables set_executor set_running]. rewrite Ht.
  rewrite rollback_tables_open by done. cbn [mbind result_bind].
  eexists. split; [done|]. rewrite <- Hframe. by destruct s0.
Qed.

Lemma connect_frame (s : Imp) r connected s1 :
  connect s r = Done (connected, s1) →
  s1 = set_sql (m_sql s1) (set_skip (m_skip s1) s).
Proof.
  unfold connect. destruct (m_sql s) eqn:Hsql.
  - intros [= _ <-]. destruct s; cbn in *; by subst.
  - destruct (negb _).
    + destruct (find_binlog_start_gtid s r "") as [[[] start]|];
        cbn [mbind result_bind]; [| |done].
      * destruct (_ && _); intros [= _ <-]; by destruct s.
      * intros [= _ <-]. destruct s; cbn in *; by subst.
    + cbn [mbind result_bind]. destruct (_ && _); intros [= _ <-]; by destruct s.
Qed.

Lemma should_process_frame (s : Imp) ev wanted s1 :
  should_process s ev = Done (wanted, s1) → only_skip_and_running s s1.
Proof.
  destruct (decide (m_skip s = NONE)) as [Hnone|Hskip].
  - unfold should_process. destruct (decide (m_skip s ≠ NONE)); [done|].
    unfold only_skip_and_running.
    destruct (negb _); [destruct ev|]; intros [= _ <-]; by destruct s.
  - intros H. by destruct (should_process_skipping _ _ _ _ Hskip H).
Qed.

Lemma process_one_event_current (s : Imp) ev rval s' :
  process_one_event s ev = Done (rval, s') →
  m_current_gtid s' = m_current_gtid s ∨ In (m_current_gtid s') (gtid_of ev).
Proof.
  destruct ev as [sid did seq flags|n|id db tbl|db stmt|kind id|n];
    cbn [process_one_event gtid_of].
  - destruct (has_flag _ _); intros [= _ <-]; right; by left.
  - destruct (commit_transactions s) as [[r s1]|] eqn:Hc; [|done].
    pose proof (commit_transactions_frame _ _ _ Hc) as (_&_&_&_&Hcur&_).
    cbn [mbind result_bind]. destruct r; intros [= _ <-]; by left.
  - destruct (Table_open _ _); intros [= _ <-]; by left.
  - destruct (set_state STMT s) as [[r s1]|] eqn:Hs; [|done].
    pose proof (set_state_frame _ _ _ _ Hs) as (_ & Hcur & _).
    cbn [mbind result_bind]. destruct r; [|intros [= _ <-]; by left].
    destruct (m_implicit_commit _); [|intros [= _ <-]; by left].
    intros Hc. pose proof (commit_transactions_frame _ _ _ Hc) as (_&_&_&_&Hcur'&_).
    left. by rewrite Hcur'.
  - destruct (tables_find id (m_tables (set_tables _ s))) as [[t|]|] eqn:Hf;
      [|intros [= _ <-]; by left..].
    cbn [m_tables set_tables] in Hf.
    apply tables_index_known in Hf as [Hidx Hf]. rewrite Hidx, set_tables_same.
    destruct (set_state BULK s) as [[r s1]|] eqn:Hs; [|done].
    pose proof (set_state_frame _ _ _ _ Hs) as (_ & Hcur & _).
    cbn [mbind result_bind]. destruct r; intros [= _ <-]; by left.
  - intros [= _ <-]. by left.
Qed.

(** What one handled event can do to the checkpoint file, the resume
    target and the current GTID. *)
Lemma handle_event_gtids (s : Imp) ev s' :
  handle_event s ev = Done s' →
  (checkpoint s' = checkpoint s ∨ checkpoint s' = Some (m_current_gtid s' +:+ endl))
  ∧ (m_gtid s' = m_gtid s ∨ m_gtid s' = m_current_gtid s')
  ∧ (m_current_gtid s' = m_current_gtid s ∨ In (m_current_gtid s') (gtid_of ev)).
Proof.
  unfold handle_event.
  destruct (should_process s ev) as [[wanted s1]|] eqn:Hsp; [|done].
  pose proof (should_process_frame _ _ _ _ Hsp) as Hframe.
  assert (Hck : checkpoint s1 = checkpoint s) by (rewrite Hframe; by destruct s).
  assert (Hg : m_gtid s1 = m_gtid s) by (rewrite Hframe; by destruct s).
  assert (Hcur : m_current_gtid s1 = m_current_gtid s)
    by (rewrite Hframe; by destruct s).
  cbn [mbind result_bind]. destruct wanted; [|intros [= <-]; by auto].
  destruct (process_one_event s1 ev) as [[processed s2]|] eqn:Hp; [|done].
  pose proof (process_one_event_checkpoint _ _ _ _ Hp) as Hck2.
  pose proof (process_one_event_m_gtid _ _ _ _ Hp) as Hg2.
  pose proof (process_one_event_current _ _ _ _ Hp) as Hcur2.
  cbn [mbind result_bind].
  assert (Hgoal :
    (checkpoint s2 = checkpoint s
     ∨ checkpoint s2 = Some (m_current_gtid s2 +:+ endl))
    ∧ (m_gtid s2 = m_gtid s ∨ m_gtid s2 = m_current_gtid s2)
    ∧ (m_current_gtid s2 = m_current_gtid s ∨ In (m_current_gtid s2) (gtid_of ev))).
  { rewrite <- Hck, <- Hg, <- Hcur. split; [done|]. split; [|done].
    destruct Hg2 as [Hsame|[Hadv Hwhy]]; [by left|right].
    rewrite Hadv. destruct Hcur2 as [Hc|Hin]; [done|].
    destruct Hwhy as [[Hx _]|[Hq _]]; by destruct ev. }
  destruct processed; intros [= <-]; exact Hgoal.
Qed.

(** X24.  However the replies of the server run, the checkpoint file is
    either what it was when the loop was entered or holds the rendering of
    a GTID event the server sent (or the GTID that was current at entry);
    the same holds of the resume target [m_gtid]. *)
Theorem checkpoint_names_sent_gtid (rounds : list Round) : ∀ (s : Imp) w,
  event_loop s rounds = Done w →
  (checkpoint (worker_state w) = checkpoint s
   ∨ names_one_of (m_current_gtid s :: gtids_sent rounds) (checkpoint (worker_state w)))
  ∧ (m_gtid (worker_state w) = m_gtid s
     ∨ In (m_gtid (worker_state w)) (m_current_gtid s :: gtids_sent rounds))
  ∧ In (m_current_gtid (worker_state w)) (m_current_gtid s :: gtids_sent rounds).
Proof.
  induction rounds as [|r rest IH]; intros s w; cbn [event_loop].
  - destruct (m_running s); intros [= <-]; cbn [worker_state];
      (split; [by left|split; [by left|by left]]).
  - destruct (m_running s); [|intros [= <-]; cbn [worker_state];
      (split; [by left|split; [by left|by left]])].
    destruct (connect s (on_connect r)) as [[connected s1]|] eqn:Hc; [|done].
    pose proof (connect_frame _ _ _ _ Hc) as Hframe.
    assert (Hck : checkpoint s1 = checkpoint s) by (rewrite Hframe; by destruct s).
    assert (Hg : m_gtid s1 = m_gtid s) by (rewrite Hframe; by destruct s).
    assert (Hcur : m_current_gtid s1 = m_current_gtid s)
      by (rewrite Hframe; by destruct s).
    cbn [mbind result_bind gtids_sent flat_map]. fold (gtids_sent rest).
    assert (Hskip : ∀ s2 extra,
      checkpoint s2 = checkpoint s → m_gtid s2 = m_gtid s →
      m_current_gtid s2 = m_current_gtid s →
      event_loop s2 rest = Done w →
      (checkpoint (worker_state w) = checkpoint s
       ∨ names_one_of (m_current_gtid s :: extra ++ gtids_sent rest)
           (checkpoint (worker_state w)))
      ∧ (m_gtid (worker_state w) = m_gtid s
         ∨ In (m_gtid (worker_state w)) (m_current_gtid s :: extra ++ gtids_sent rest))
      ∧ In (m_current_gtid (worker_state w))
           (m_current_gtid s :: extra ++ gtids_sent rest)).
    { intros s2 extra Hck2 Hg2 Hcur2 Hloop.
      destruct (IH _ _ Hloop) as (Hi1 & Hi2 & Hi3).
      rewrite Hck2, Hg2, Hcur2 in *.
      assert (Hweak : ∀ g, In g (m_current_gtid s :: gtids_sent rest) →
                In g (m_current_gtid s :: extra ++ gtids_sent rest)).
      { intros g [->|Hin]; [by left|right]. apply in_or_app. by right. }
      split; [|split].
      - destruct Hi1 as [?|(g & Hin & Heq)]; [by left|right].
        exists g. by auto.
      - destruct Hi2 as [?|Hin]; [by left|right; by auto].
      - by auto. }
    destruct connected; [|by apply Hskip].
    destruct (on_fetch r) as [ev|errnum].
    + destruct (handle_event s1 ev) as [s2|] eqn:Hh; [|done].
      cbn [mbind result_bind]. intros Hloop.
      destruct (handle_event_gtids _ _ _ Hh) as (Hh1 & Hh2 & Hh3).
      rewrite Hck, Hg, Hcur in *.
      destruct (IH _ _ Hloop) as (Hi1 & Hi2 & Hi3).
      assert (Hs2 : In (m_current_gtid s2) (m_current_gtid s :: gtid_of ev ++ gtids_sent rest)).
      { destruct Hh3 as [->|Hin]; [by left|right]. apply in_or_app. by left. }
      assert (Hweak : ∀ g, In g (m_current_gtid s2 :: gtids_sent rest) →
                In g (m_current_gtid s :: gtid_of ev ++ gtids_sent rest)).
      { intros g [<-|Hin]; [done|right]. apply in_or_app. by right. }
      split; [|split].
      * destruct Hi1 as [Hsame|(g & Hin & Heq)].
        -- rewrite Hsame. destruct Hh1 as [?|Hnew]; [by left|right].
           by exists (m_current_gtid s2).
        -- right. exists g. by auto.
      * destruct Hi2 as [Hsame|Hin].
        -- rewrite Hsame. destruct Hh2 as [?|Hnew]; [by left|right].
           by rewrite Hnew.
        -- right. by auto.
      * by auto.
    + destruct (errnum =? CR_SERVER_LOST).
      * apply (Hskip (set_sql None s1) []); by destruct s1.
      * intros [= <-]. cbn [worker_state app]. rewrite Hck, Hg, Hcur.
        split; [by left|split; [by left|by left]].
Qed.

End MoreProperties.

(** ** The health countdown of a Clustrix node *)

Section NodeProperties.
Context `{Api : ServerApi}.

Lemma failed_checks_at_zero (k : nat) : ∀ (n : Clustrix.ClustrixNodeInfo) server,
  (Clustrix.m_nRunning n <= 0)%Z → Clustrix.failed_checks k (n, server) = (n, server).
Proof.
  induction k as [|k IH]; intros n server Hz; [done|].
  cbn [Clustrix.failed_checks fst snd]. unfold Clustrix.set_running.
  destruct (Z.ltb_spec 0 (Clustrix.m_nRunning n)); [lia|]. by apply IH.
Qed.

Lemma failed_checks_countdown (k : nat) : ∀ (n : Clustrix.ClustrixNodeInfo) server,
  (0 < Clustrix.m_nRunning n)%Z →
  Clustrix.failed_checks k (n, server)
  = (Clustrix.with_nRunning (Z.max 0 (Clustrix.m_nRunning n - Z.of_nat k)) n,
     if (Z.of_nat k <? Clustrix.m_nRunning n)%Z then server
     else clear_status SERVER_RUNNING server).
Proof.
  induction k as [|k IH]; intros n server Hpos.
  - cbn [Clustrix.failed_checks]. rewrite Z.sub_0_r, Z.max_r by lia.
    destruct (Z.ltb_spec (Z.of_nat 0) (Clustrix.m_nRunning n)); [|lia].
    by destruct n.
  - cbn [Clustrix.failed_checks fst snd]. unfold Clustrix.set_running.
    destruct (Z.ltb_spec 0 (Clustrix.m_nRunning n)); [|lia].
    cbn [Clustrix.m_nRunning Clustrix.with_nRunning].
    destruct (Z.eqb_spec (Clustrix.m_nRunning n - 1) 0) as [Hone|Hmore].
    + rewrite failed_checks_at_zero by (cbn; lia).
      destruct (Z.ltb_spec (Z.of_nat (S k)) (Clustrix.m_nRunning n)); [lia|].
      f_equal. unfold Clustrix.with_nRunning. f_equal. lia.
    + rewrite IH by (cbn; lia).
      cbn [Clustrix.m_nRunning Clustrix.with_nRunning Clustrix.m_id Clustrix.m_ip
           Clustrix.m_mysql_port Clustrix.m_health_port
           Clustrix.m_health_check_threshold].
      f_equal.
      * unfold Clustrix.with_nRunning. cbn. f_equal. lia.
      * destruct (Z.ltb_spec (Z.of_nat k) (Clustrix.m_nRunning n - 1)),
          (Z.ltb_spec (Z.of_nat (S k)) (Clustrix.m_nRunning n)); (done || lia).
Qed.

(** X22.  With a positive threshold [h], a node that has just passed a
    health check stays running through [h - 1] failed checks in a row and
    stops running at the [h]-th; the server's [SERVER_RUNNING] status is
    cleared at that check, once, and not before. *)
Theorem node_stops_after_threshold (n : Clustrix.ClustrixNodeInfo) server (k : nat) :
  (0 < Clustrix.m_health_check_threshold n)%Z →
  Clustrix.is_running (Clustrix.failed_checks k (Clustrix.set_running true n server)).1
  = (Z.of_nat k <? Clustrix.m_health_check_threshold n)%Z
  ∧ (Clustrix.failed_checks k (Clustrix.set_running true n server)).2
    = (if (Z.of_nat k <? Clustrix.m_health_check_threshold n)%Z
       then set_status SERVER_RUNNING server
       else clear_status SERVER_RUNNING (set_status SERVER_RUNNING server)).
Proof.
  intros Hpos. unfold Clustrix.set_running at 1 2.
  rewrite failed_checks_countdown by (cbn; lia).
  cbn [fst snd Clustrix.m_nRunning Clustrix.with_nRunning Clustrix.is_running].
  split; [|done]. unfold Clustrix.is_running. cbn [Clustrix.m_nRunning Clustrix.with_nRunning].
  destruct (Z.ltb_spec (Z.of_nat k) (Clustrix.m_health_check_threshold n)),
    (Z.ltb_spec 0 (Z.max 0 (Clustrix.m_health_check_threshold n - Z.of_nat k)));
    (done || lia).
Qed.

(** X23.  With a threshold that is not positive a node is never running,
    not even right after a passed check, and failed checks never clear the
    status that the passed check set. *)
Theorem node_without_threshold (n : Clustrix.ClustrixNodeInfo) server (k : nat) :
  (Clustrix.m_health_check_threshold n <= 0)%Z →
  Clustrix.is_running (Clustrix.set_running true n server).1 = false
  ∧ Clustrix.failed_checks k (Clustrix.set_running true n server)
    = (Clustrix.with_nRunning (Clustrix.m_health_check_threshold n) n,
       set_status SERVER_RUNNING server).
Proof.
  intros Hle. unfold Clustrix.set_running at 1 2. split.
  - unfold Clustrix.is_running. cbn [fst Clustrix.m_nRunning Clustrix.with_nRunning].
    destruct (Z.ltb_spec 0 (Clustrix.m_health_check_threshold n)); [lia|done].
  - by apply failed_checks_at_zero.
Qed.

End NodeProperties.

(** ** The further statements on concrete input *)

Lemma gtid_list_is_newer_permutation_witness :
  gtid_list_is_newer true "0-1-100" ["1-1-500"; "0-1-150"]
  = gtid_list_is_newer true "0-1-100" ["0-1-150"; "1-1-500"].
Proof.
  exact (gtid_list_is_newer_permutation true
           {| domain := 0; server := 1; sequence := 100 |}
           [{| domain := 1; server := 1; sequence := 500 |};
            {| domain := 0; server := 1; sequence := 150 |}]
           [{| domain := 0; server := 1; sequence := 150 |};
            {| domain := 1; server := 1; sequence := 500 |}]
           ltac:(repeat split; reflexivity)
           ltac:(repeat constructor; reflexivity)
           (perm_swap _ _ [])).
Defined.

Lemma find_binlog_start_gtid_scan_witness :
  find_binlog_start_gtid resuming (accept_with four_binlogs) "" = Done (true, "0-1-90").
Proof.
  refine (proj1 (@find_binlog_start_gtid_scan (recording false) resuming
                   (accept_with four_binlogs)
                   [binlog "bin.000001" "(0-1-50)"; binlog "bin.000002" "(0-1-90)"]
                   "" eq_refl _)
            (binlog "bin.000003" "(0-1-150)") [binlog "bin.000004" "(0-1-200)"]
            eq_refl eq_refl eq_refl).
  repeat constructor; intros _; reflexivity.
Defined.

Lemma connect_session_witness :
  ∃ s1, connect resuming (accept_with four_binlogs) = Done (true, s1)
        ∧ is_Some (m_sql s1) ∧ m_skip s1 = ALL.
Proof.
  assert (Hc : ∃ s1, connect resuming (accept_with four_binlogs) = Done (true, s1))
    by (eexists; vm_compute; reflexivity).
  destruct Hc as [s1 Hc]. exists s1. split; [exact Hc|].
  destruct (@connect_session (recording false) _ _ _ _ Hc)
    as (Hiff & _ & _ & Hall & _).
  split; [exact (proj1 Hiff eq_refl)|].
  apply Hall; [reflexivity|reflexivity|discriminate].
Defined.

Lemma save_then_load_witness :
  load_gtid_state
    (fresh false (no_filter "5-5-5") (disk (save_gtid_state no_tables).2))
  = (true, set_gtid "0-1-11"
             (fresh false (no_filter "5-5-5") (disk (save_gtid_state no_tables).2))).
Proof.
  exact (@save_then_load (recording false) no_tables (save_gtid_state no_tables).2
           (fresh false (no_filter "5-5-5") (disk (save_gtid_state no_tables).2))
           1 0 11 eq_refl eq_refl eq_refl eq_refl).
Defined.

Lemma commit_transactions_result_witness :
  all_open (m_tables two_tables) = true
  ∧ ∃ s', commit_transactions two_tables = Done (false, s')
          ∧ checkpoint s' = Some ("0-1-10" +:+ endl).
Proof.
  split; [reflexivity|].
  exact (@commit_transactions_result (recording false) two_tables eq_refl).
Defined.

Lemma checkpoint_names_current_gtid_witness :
  ∃ s', process_one_event no_tables (XID_EVENT 5) = Done (true, s')
        ∧ (checkpoint s' = checkpoint no_tables
           ∨ checkpoint s' = Some (m_current_gtid s' +:+ endl)).
Proof.
  assert (Hp : ∃ s', process_one_event no_tables (XID_EVENT 5) = Done (true, s'))
    by (eexists; vm_compute; reflexivity).
  destruct Hp as [s' Hp]. exists s'. split; [exact Hp|].
  exact (@checkpoint_names_current_gtid (recording false) _ _ _ _ Hp).
Defined.

Lemma mode_switch_checkpoint_witness :
  m_state stmt_with_table = STMT
  ∧ ∃ s', process_one_event stmt_with_table (write_rows 7) = Done (true, s')
          ∧ checkpoint s' = Some ("0-1-11" +:+ endl)
          ∧ m_gtid s' = "0-1-10" ∧ m_state s' = BULK.
Proof.
  split; [reflexivity|].
  assert (Hp : ∃ s', process_one_event stmt_with_table (write_rows 7) = Done (true, s'))
    by (eexists; vm_compute; reflexivity).
  destruct Hp as [s' Hp]. exists s'. split; [exact Hp|].
  exact (proj1 (@mode_switch_checkpoint (recording false) _ _ _ Hp)
           WRITE_ROWS_EVENT_V1 7 (empty_sink "db.t" true) eq_refl eq_refl eq_refl).
Defined.

Lemma m_gtid_advances_witness :
  ∃ s', process_one_event no_tables (XID_EVENT 5) = Done (true, s')
        ∧ (m_gtid s' = m_gtid no_tables
           ∨ m_gtid s' = m_current_gtid no_tables
             ∧ (is_xid_event (XID_EVENT 5) = true ∧ true = true
                ∨ is_query_event (XID_EVENT 5) = true
                  ∧ m_implicit_commit no_tables = true)).
Proof.
  assert (Hp : ∃ s', process_one_event no_tables (XID_EVENT 5) = Done (true, s'))
    by (eexists; vm_compute; reflexivity).
  destruct Hp as [s' Hp]. exists s'. split; [exact Hp|].
  exact (@m_gtid_advances (recording false) _ _ _ _ Hp).
Defined.

Lemma mode_after_event_witness :
  ∃ s', process_one_event stmt_with_table (write_rows 7) = Done (true, s')
        ∧ m_state s' = BULK.
Proof.
  assert (Hp : ∃ s', process_one_event stmt_with_table (write_rows 7) = Done (true, s'))
    by (eexists; vm_compute; reflexivity).
  destruct Hp as [s' Hp]. exists s'. split; [exact Hp|].
  exact (proj1 (proj2 (@mode_after_event (recording false) _ _ _ Hp))
           WRITE_ROWS_EVENT_V1 7 (empty_sink "db.t" true) eq_refl eq_refl).
Defined.

Lemma implicit_commit_flag_lifecycle_witness :
  ∃ s', process_one_event no_tables (GTID_EVENT 1 0 12 1) = Done (true, s')
        ∧ m_implicit_commit s' = true.
Proof.
  assert (Hp : ∃ s', process_one_event no_tables (GTID_EVENT 1 0 12 1) = Done (true, s'))
    by (eexists; vm_compute; reflexivity).
  destruct Hp as [s' Hp]. exists s'. split; [exact Hp|].
  exact (proj1 (@implicit_commit_flag_lifecycle (recording false) _ _ _ _ Hp)
           1 0 12 1 eq_refl).
Defined.

Lemma registry_stays_open_witness :
  all_open (m_tables two_tables) = true
  ∧ ∃ rval s', process_one_event two_tables (write_rows 8) = Done (rval, s')
               ∧ all_open (m_tables s') = true.
Proof.
  split; [reflexivity|].
  refine (@registry_stays_open (recording false) two_tables (write_rows 8) eq_refl _).
  intros kind id [= _ <-]. discriminate.
Defined.

Lemma should_process_filter_witness :
  m_skip filtering = NONE
  ∧ should_process filtering create_b = Done (false, filtering)
  ∧ should_process filtering insert_a = Done (true, filtering).
Proof.
  split; [reflexivity|]. split.
  - exact (@should_process_filter (recording false) filtering create_b eq_refl).
  - exact (@should_process_filter (recording false) filtering insert_a eq_refl).
Defined.

Lemma table_map_then_rows_witness :
  m_state two_tables = BULK
  ∧ ∃ s1 s2,
      process_one_event two_tables (TABLE_MAP_EVENT 9 "db" "a") = Done (true, s1)
      ∧ process_one_event s1 (write_rows 9) = Done (true, s2)
      ∧ tables_find 9 (m_tables s2)
        = Some (Some (sink_enqueue (write_rows 9) (empty_sink "db.a" true))).
Proof.
  split; [reflexivity|].
  destruct (@table_map_then_rows (recording false) two_tables 9 "db" "a"
              WRITE_ROWS_EVENT_V1 (empty_sink "db.a" true) eq_refl eq_refl)
    as (s1 & s2 & H1 & H2 & H3 & _).
  exists s1, s2. split; [exact H1|]. split; [exact H2|exact H3].
Defined.

Lemma gtid_event_while_skipping_witness :
  m_skip (skipping false ALL) = ALL
  ∧ should_process (skipping false ALL) (GTID_EVENT 1 0 11 0)
    = Done (false, set_running false (skipping false ALL)).
Proof.
  split; [reflexivity|].
  exact (@gtid_event_while_skipping (recording false) (skipping false ALL)
           {| domain := 0; server := 1; sequence := 10 |}
           {| domain := 0; server := 1; sequence := 11 |} 0
           eq_refl eq_refl
           ltac:(repeat split; reflexivity) ltac:(repeat split; reflexivity)).
Defined.


Lemma skipped_transaction_witness :
  event_loop (skipping false ALL)
    (map (delivery accept) [GTID_EVENT 1 0 10 0; insert_a; XID_EVENT 5])
  = Done (Waiting (set_skip NONE (skipping false ALL))).
Proof.
  exact (@skipped_transaction (recording false) (skipping false ALL) accept
           1 0 10 0 [insert_a] 5 eq_refl (ex_intro _ _ eq_refl) eq_refl eq_refl
           eq_refl ltac:(repeat constructor)).
Defined.

Lemma skipped_implicit_statement_witness :
  event_loop (skipping false ALL)
    [delivery accept (GTID_EVENT 1 0 10 1); delivery accept create_b]
  = Done (Waiting (set_skip NONE (skipping false ALL))).
Proof.
  exact (@skipped_implicit_statement (recording false) (skipping false ALL) accept
           1 0 10 1 create_b eq_refl (ex_intro _ _ eq_refl) eq_refl eq_refl
           eq_refl eq_refl).
Defined.

Lemma failed_load_stops_worker_witness :
  ∃ s', process_events blank_start [deliver (GTID_EVENT 1 0 10 0)]
        = Done (Exited s')
        ∧ ok s' = false ∧ m_sql s' = None.
Proof.
  destruct (@failed_load_stops_worker (recording false) blank_start
              [deliver (GTID_EVENT 1 0 10 0)] eq_refl eq_refl)
    as (s' & Hp & Hok & Hsql & _).
  exists s'. split; [exact Hp|]. split; [exact Hok|exact Hsql].
Defined.

Lemma node_stops_after_threshold_witness :
  (0 < Clustrix.m_health_check_threshold sample_node)%Z
  ∧ Clustrix.is_running
      (@Clustrix.failed_checks status_bits 1
         (@Clustrix.set_running status_bits true sample_node 0%Z)).1 = true
  ∧ Clustrix.is_running
      (@Clustrix.failed_checks status_bits 2
         (@Clustrix.set_running status_bits true sample_node 0%Z)).1 = false
  ∧ (@Clustrix.failed_checks status_bits 2
       (@Clustrix.set_running status_bits true sample_node 4%Z)).2 = 4%Z.
Proof.
  split; [reflexivity|]. split; [|split].
  - exact (proj1 (@node_stops_after_threshold status_bits sample_node 0%Z 1 eq_refl)).
  - exact (proj1 (@node_stops_after_threshold status_bits sample_node 0%Z 2 eq_refl)).
  - exact (proj2 (@node_stops_after_threshold status_bits sample_node 4%Z 2 eq_refl)).
Defined.

Lemma node_without_threshold_witness :
  Clustrix.is_running
    (@Clustrix.set_running status_bits true
       (Clustrix.create 1 "10.0.0.1" 3306 3581 0) 0%Z).1
  = false.
Proof.
  exact (proj1 (@node_without_threshold status_bits
                  (Clustrix.create 1 "10.0.0.1" 3306 3581 0) 0%Z 3
                  ltac:(discriminate))).
Defined.

Lemma checkpoint_names_sent_gtid_witness :
  ∃ w, event_loop plain_start
         [deliver (GTID_EVENT 1 0 5 0); deliver insert_a; deliver (XID_EVENT 9)]
       = Done w
       ∧ checkpoint (worker_state w) = Some ("0-1-5" +:+ endl)
       ∧ (checkpoint (worker_state w) = checkpoint plain_start
          ∨ names_one_of [""; "0-1-5"] (checkpoint (worker_state w))).
Proof.
  assert (Hp : ∃ w, event_loop plain_start
                      [deliver (GTID_EVENT 1 0 5 0); deliver insert_a;
                       deliver (XID_EVENT 9)] = Done w
                    ∧ checkpoint (worker_state w) = Some ("0-1-5" +:+ endl))
    by (eexists; split; [vm_compute; reflexivity|reflexivity]).
  destruct Hp as (w & Hp & Hck). exists w. split; [exact Hp|]. split; [exact Hck|].
  exact (proj1 (@checkpoint_names_sent_gtid (recording false) _ _ _ Hp)).
Defined.
